(** * wxjb: the question bank store and its progress persistence

    A shallow embedding of [src/ui.py] (classes [QuestionManager],
    [DatabaseManager], [AnswerWidget] and the parts of [MainWindow] that
    drive them) and of the answer field of [src/transformer.py].

    Python objects are modelled as the code uses them.  Every question is a
    [dict] that is shared by reference between [question_sets], [questions]
    and the identity index built when progress rows are applied, so the
    question dicts live in a store [objs] and the lists hold addresses.
    Lists themselves are never mutated after they are built, so they are
    plain values.  Integers are Python integers ([Z]); list indexing follows
    Python (negative indices count from the end, anything else out of range
    raises [IndexError]). *)

From Stdlib Require Import ZArith String Ascii DecimalString DecimalZ DecimalPos Lia.
From stdpp Require Import base list strings gmap.

Local Open Scope Z_scope.

(** ** Values *)

(** What one spreadsheet cell holds once pandas has read it. *)
Inductive Cell :=
| CStr (s : string)
| CInt (n : Z)
| CNaN.

#[global] Instance Cell_eq_dec : EqDecision Cell.
Proof. solve_decision. Defined.

(** One question dict, with the keys [load_from_excel] gives it. *)
Record Question := {
  q_type : Cell;
  q_level : Cell;
  q_id : Cell;
  q_qid : Cell;
  q_content : Cell;
  q_options : list (string * Cell);
  q_answer : Cell;
  q_explanation : Cell;
  q_answered : Z;
  q_correct : Z;
  q_wrong : Z;
  q_marked : bool;
  q_mastered : bool
}.

#[global] Instance Question_eq_dec : EqDecision Question.
Proof. solve_decision. Defined.

#[global] Instance Question_inhabited : Inhabited Question :=
  populate {| q_type := CNaN; q_level := CNaN; q_id := CNaN; q_qid := CNaN;
              q_content := CNaN; q_options := []; q_answer := CNaN;
              q_explanation := CNaN; q_answered := 0; q_correct := 0;
              q_wrong := 0; q_marked := false; q_mastered := false |}.

(** [q['answered'] = v] and its four siblings. *)
Definition set_answered (v : Z) (q : Question) : Question :=
  {| q_type := q_type q; q_level := q_level q; q_id := q_id q; q_qid := q_qid q;
     q_content := q_content q; q_options := q_options q; q_answer := q_answer q;
     q_explanation := q_explanation q; q_answered := v; q_correct := q_correct q;
     q_wrong := q_wrong q; q_marked := q_marked q; q_mastered := q_mastered q |}.

Definition set_correct (v : Z) (q : Question) : Question :=
  {| q_type := q_type q; q_level := q_level q; q_id := q_id q; q_qid := q_qid q;
     q_content := q_content q; q_options := q_options q; q_answer := q_answer q;
     q_explanation := q_explanation q; q_answered := q_answered q; q_correct := v;
     q_wrong := q_wrong q; q_marked := q_marked q; q_mastered := q_mastered q |}.

Definition set_wrong (v : Z) (q : Question) : Question :=
  {| q_type := q_type q; q_level := q_level q; q_id := q_id q; q_qid := q_qid q;
     q_content := q_content q; q_options := q_options q; q_answer := q_answer q;
     q_explanation := q_explanation q; q_answered := q_answered q;
     q_correct := q_correct q; q_wrong := v; q_marked := q_marked q;
     q_mastered := q_mastered q |}.

Definition set_marked (v : bool) (q : Question) : Question :=
  {| q_type := q_type q; q_level := q_level q; q_id := q_id q; q_qid := q_qid q;
     q_content := q_content q; q_options := q_options q; q_answer := q_answer q;
     q_explanation := q_explanation q; q_answered := q_answered q;
     q_correct := q_correct q; q_wrong := q_wrong q; q_marked := v;
     q_mastered := q_mastered q |}.

Definition set_mastered (v : bool) (q : Question) : Question :=
  {| q_type := q_type q; q_level := q_level q; q_id := q_id q; q_qid := q_qid q;
     q_content := q_content q; q_options := q_options q; q_answer := q_answer q;
     q_explanation := q_explanation q; q_answered := q_answered q;
     q_correct := q_correct q; q_wrong := q_wrong q; q_marked := q_marked q;
     q_mastered := v |}.

(** The part of a question that answering, marking, resetting, releasing and
    loading progress never touch. *)
Definition same_content (q q' : Question) : Prop :=
  q_type q' = q_type q ∧ q_level q' = q_level q ∧ q_id q' = q_id q ∧
  q_qid q' = q_qid q ∧ q_content q' = q_content q ∧
  q_options q' = q_options q ∧ q_answer q' = q_answer q ∧
  q_explanation q' = q_explanation q.

(** One row of table [user_progress] (the autoincrement key is the position
    in the table). *)
Record ProgressRow := {
  r_question_id : Cell;
  r_answered : Z;
  r_correct : Z;
  r_wrong : Z;
  r_marked : Z;
  r_mastered : Z;
  r_set_name : string
}.

(** One option button of the answer widget. *)
Record Button := { btn_text : string; btn_checked : bool }.

(** ** The program state *)

Definition addr := nat.

Record World := {
  (** the question dicts, by address *)
  objs : list Question;
  (** [QuestionManager] *)
  questions : list addr;
  current_question_index : Z;
  question_sets : list (string * list addr);
  current_set : string;
  current_file_path : option string;
  (** [DatabaseManager]: the two tables of [user_data.db] *)
  user_progress : list ProgressRow;
  app_state : gmap string string;
  (** [MainWindow] and its [AnswerWidget] *)
  initialized : bool;
  showing_answer : bool;
  is_multiple : bool;
  buttons : list Button
}.

Definition with_objs (v : list Question) (w : World) : World :=
  {| objs := v; questions := questions w;
     current_question_index := current_question_index w;
     question_sets := question_sets w; current_set := current_set w;
     current_file_path := current_file_path w;
     user_progress := user_progress w; app_state := app_state w;
     initialized := initialized w; showing_answer := showing_answer w;
     is_multiple := is_multiple w; buttons := buttons w |}.

Definition with_questions (v : list addr) (w : World) : World :=
  {| objs := objs w; questions := v;
     current_question_index := current_question_index w;
     question_sets := question_sets w; current_set := current_set w;
     current_file_path := current_file_path w;
     user_progress := user_progress w; app_state := app_state w;
     initialized := initialized w; showing_answer := showing_answer w;
     is_multiple := is_multiple w; buttons := buttons w |}.

Definition with_current_question_index (v : Z) (w : World) : World :=
  {| objs := objs w; questions := questions w; current_question_index := v;
     question_sets := question_sets w; current_set := current_set w;
     current_file_path := current_file_path w;
     user_progress := user_progress w; app_state := app_state w;
     initialized := initialized w; showing_answer := showing_answer w;
     is_multiple := is_multiple w; buttons := buttons w |}.

Definition with_question_sets (v : list (string * list addr)) (w : World) : World :=
  {| objs := objs w; questions := questions w;
     current_question_index := current_question_index w; question_sets := v;
     current_set := current_set w; current_file_path := current_file_path w;
     user_progress := user_progress w; app_state := app_state w;
     initialized := initialized w; showing_answer := showing_answer w;
     is_multiple := is_multiple w; buttons := buttons w |}.

Definition with_current_set (v : string) (w : World) : World :=
  {| objs := objs w; questions := questions w;
     current_question_index := current_question_index w;
     question_sets := question_sets w; current_set := v;
     current_file_path := current_file_path w;
     user_progress := user_progress w; app_state := app_state w;
     initialized := initialized w; showing_answer := showing_answer w;
     is_multiple := is_multiple w; buttons := buttons w |}.

Definition with_current_file_path (v : option string) (w : World) : World :=
  {| objs := objs w; questions := questions w;
     current_question_index := current_question_index w;
     question_sets := question_sets w; current_set := current_set w;
     current_file_path := v; user_progress := user_progress w;
     app_state := app_state w; initialized := initialized w;
     showing_answer := showing_answer w; is_multiple := is_multiple w;
     buttons := buttons w |}.

Definition with_user_progress (v : list ProgressRow) (w : World) : World :=
  {| objs := objs w; questions := questions w;
     current_question_index := current_question_index w;
     question_sets := question_sets w; current_set := current_set w;
     current_file_path := current_file_path w; user_progress := v;
     app_state := app_state w; initialized := initialized w;
     showing_answer := showing_answer w; is_multiple := is_multiple w;
     buttons := buttons w |}.

Definition with_app_state (v : gmap string string) (w : World) : World :=
  {| objs := objs w; questions := questions w;
     current_question_index := current_question_index w;
     question_sets := question_sets w; current_set := current_set w;
     current_file_path := current_file_path w;
     user_progress := user_progress w; app_state := v;
     initialized := initialized w; showing_answer := showing_answer w;
     is_multiple := is_multiple w; buttons := buttons w |}.

Definition with_initialized (v : bool) (w : World) : World :=
  {| objs := objs w; questions := questions w;
     current_question_index := current_question_index w;
     question_sets := question_sets w; current_set := current_set w;
     current_file_path := current_file_path w;
     user_progress := user_progress w; app_state := app_state w;
     initialized := v; showing_answer := showing_answer w;
     is_multiple := is_multiple w; buttons := buttons w |}.

Definition with_showing_answer (v : bool) (w : World) : World :=
  {| objs := objs w; questions := questions w;
     current_question_index := current_question_index w;
     question_sets := question_sets w; current_set := current_set w;
     current_file_path := current_file_path w;
     user_progress := user_progress w; app_state := app_state w;
     initialized := initialized w; showing_answer := v;
     is_multiple := is_multiple w; buttons := buttons w |}.

Definition with_is_multiple (v : bool) (w : World) : World :=
  {| objs := objs w; questions := questions w;
     current_question_index := current_question_index w;
     question_sets := question_sets w; current_set := current_set w;
     current_file_path := current_file_path w;
     user_progress := user_progress w; app_state := app_state w;
     initialized := initialized w; showing_answer := showing_answer w;
     is_multiple := v; buttons := buttons w |}.

Definition with_buttons (v : list Button) (w : World) : World :=
  {| objs := objs w; questions := questions w;
     current_question_index := current_question_index w;
     question_sets := question_sets w; current_set := current_set w;
     current_file_path := current_file_path w;
     user_progress := user_progress w; app_state := app_state w;
     initialized := initialized w; showing_answer := showing_answer w;
     is_multiple := is_multiple w; buttons := v |}.

(** ** Exceptions and the state monad the methods run in

    A Python method changes the state and then returns or raises; what it
    changed before raising stays changed. *)

Inductive exn :=
| IndexError
| KeyError (key : string)
| ValueError (detail : list string)
| AttributeError.

Inductive result (A : Type) :=
| Ok (a : A)
| Raise (e : exn).
Arguments Ok {A} a.
Arguments Raise {A} e.

#[global] Instance result_ret : MRet result := λ A a, Ok a.
#[global] Instance result_bind : MBind result := λ A B f r,
  match r with
  | Ok a => f a
  | Raise e => Raise e
  end.

Definition M (A : Type) : Type := World → result A * World.

#[global] Instance M_ret : MRet M := λ A a w, (Ok a, w).
#[global] Instance M_bind : MBind M := λ A B f m w,
  match m w with
  | (Ok a, w') => f a w'
  | (Raise e, w') => (Raise e, w')
  end.

Definition raise {A} (e : exn) : M A := λ w, (Raise e, w).
Definition get_world : M World := λ w, (Ok w, w).
Definition modify (f : World → World) : M unit := λ w, (Ok tt, f w).

(** [try: body except Exception as e: handler e] *)
Definition try_except {A} (body : M A) (handler : exn → M A) : M A := λ w,
  match body w with
  | (Ok a, w') => (Ok a, w')
  | (Raise e, w') => handler e w'
  end.

(** ** Python lists and ranges *)

(** [l[i]] *)
Definition py_index {A} (l : list A) (i : Z) : option A :=
  let n := Z.of_nat (length l) in
  if bool_decide (0 ≤ i) then l !! Z.to_nat i
  else if bool_decide (- n ≤ i) then l !! Z.to_nat (n + i)
  else None.

(** [range(start, stop)] *)
Definition py_range (start stop : Z) : list Z :=
  (λ k : nat, start + Z.of_nat k) <$> seq 0 (Z.to_nat (stop - start)).

(** [range(start, -1, -1)] *)
Definition py_range_down (start : Z) : list Z :=
  (λ k : nat, start - Z.of_nat k) <$> seq 0 (Z.to_nat (start + 1)).

(** A [dict] with string keys: insertion-ordered, assignment to a key that
    is present replaces its value in place. *)
Fixpoint dict_get {V} (d : list (string * V)) (k : string) : option V :=
  match d with
  | [] => None
  | (k', v) :: d' => if decide (k' = k) then Some v else dict_get d' k
  end.

Fixpoint dict_set {V} (d : list (string * V)) (k : string) (v : V)
  : list (string * V) :=
  match d with
  | [] => [(k, v)]
  | (k', v') :: d' =>
      if decide (k' = k) then (k, v) :: d' else (k', v') :: dict_set d' k v
  end.

Definition dict_keys {V} (d : list (string * V)) : list string := d.*1.

(** ** The store of question dicts *)

Definition read (a : addr) (w : World) : Question := objs w !!! a.

Definition update (a : addr) (f : Question → Question) (w : World) : World :=
  with_objs (<[a := f (read a w)]> (objs w)) w.

(** Allocate the dicts of a freshly built list, in order. *)
Definition alloc (qs : list Question) : M (list addr) := λ w,
  (Ok (seq (length (objs w)) (length qs)), with_objs (objs w ++ qs) w).

Definition lift {A} (r : result A) : M A := λ w, (r, w).

(** ** Strings and paths *)

(** [s.split(sep)[0]]: the text before the first separator. *)
Fixpoint split_first (sep : ascii) (s : string) : string :=
  match s with
  | EmptyString => EmptyString
  | String c s' =>
      if decide (c = sep) then EmptyString else String c (split_first sep s')
  end.

Fixpoint has_char (c : ascii) (s : string) : bool :=
  match s with
  | EmptyString => false
  | String c' s' => bool_decide (c' = c) || has_char c s'
  end.

(** [os.path.basename] (the POSIX one): the text after the last slash. *)
Fixpoint basename (p : string) : string :=
  match p with
  | EmptyString => EmptyString
  | String c p' =>
      if has_char "/" p' then basename p'
      else if decide (c = "/"%char) then p' else p
  end.

(** ** The spreadsheet *)

(** The frame [pd.read_excel] returns: the header and the rows, every row
    holding one cell per column. *)
Record DataFrame := {
  df_columns : list string;
  df_rows : list (list Cell)
}.

Definition df_wf (df : DataFrame) : Prop :=
  Forall (λ row, length row = length (df_columns df)) (df_rows df).

(** [row[col]] *)
Definition row_get (columns : list string) (row : list Cell) (col : string)
  : result Cell :=
  match list_find (λ c, c = col) columns with
  | Some (i, _) =>
      match row !! i with
      | Some c => Ok c
      | None => Raise (KeyError col)
      end
  | None => Raise (KeyError col)
  end.

(** [row.get(col, default)] *)
Definition row_get_default (columns : list string) (row : list Cell)
    (col : string) (default : Cell) : Cell :=
  match row_get columns row col with
  | Ok c => c
  | Raise _ => default
  end.

(** ** class QuestionManager *)

Module QuestionManager.

(** [__init__] *)
Definition init (w : World) : World :=
  with_current_file_path None
    (with_current_set ""
       (with_question_sets []
          (with_current_question_index 0 (with_questions [] w)))).

Definition required_columns : list string :=
  ["题型"; "等级"; "题号"; "题目编号"; "题目内容";
   "选项A"; "选项B"; "选项C"; "选项D"; "正确答案"]%string.

(** The dict built for one row, progress at its defaults. *)
Definition question_of_row (columns : list string) (row : list Cell)
  : result Question :=
  type ← row_get columns row "题型";
  level ← row_get columns row "等级";
  id ← row_get columns row "题号";
  qid ← row_get columns row "题目编号";
  content ← row_get columns row "题目内容";
  a ← row_get columns row "选项A";
  b ← row_get columns row "选项B";
  c ← row_get columns row "选项C";
  d ← row_get columns row "选项D";
  answer ← row_get columns row "正确答案";
  mret {| q_type := type; q_level := level; q_id := id; q_qid := qid;
          q_content := content;
          q_options := [("A", a); ("B", b); ("C", c); ("D", d)]%string;
          q_answer := answer;
          q_explanation :=
            row_get_default columns row "解析" (CStr "暂无解析");
          q_answered := 0; q_correct := 0; q_wrong := 0;
          q_marked := false; q_mastered := false |}.

(** What the message returned by [load_from_excel] reports.  The frame is
    an argument: the method is modelled from the point where
    [pd.read_excel] has returned it. *)
Inductive message :=
| Loaded (count : nat)
| LoadFailed (e : exn).

Definition load_from_excel (file_path : string) (df : DataFrame)
  : M (bool * message) :=
  try_except
    (if bool_decide (Forall (λ col, col ∈ df_columns df) required_columns) then
       qs ← lift (mapM (question_of_row (df_columns df)) (df_rows df));
       questions ← alloc qs;
       let set_name := split_first "." (basename file_path) in
       modify (λ w,
         with_current_file_path (Some file_path)
           (with_current_set set_name
              (with_question_sets
                 (dict_set (question_sets w) set_name questions) w)));;
       mret (true, Loaded (length questions))
     else
       let missing := filter (λ col, col ∉ df_columns df) required_columns in
       raise (ValueError missing))
    (λ e, mret (false, LoadFailed e)).

Definition set_current_set (set_name : string) : M bool := λ w,
  match dict_get (question_sets w) set_name with
  | Some qs =>
      (Ok true,
       with_current_question_index 0
         (with_questions qs (with_current_set set_name w)))
  | None => (Ok false, w)
  end.

Definition get_current_question : M (option addr) := λ w,
  match questions w with
  | [] => (Ok None, w)
  | _ =>
      match py_index (questions w) (current_question_index w) with
      | Some a => (Ok (Some a), w)
      | None => (Raise IndexError, w)
      end
  end.

(** The loop shared by the four scanning methods: the first [i] of the range
    with [not self.questions[i]['mastered']]. *)
Fixpoint first_unmastered (w : World) (range : list Z) : result (option Z) :=
  match range with
  | [] => Ok None
  | i :: range' =>
      match py_index (questions w) i with
      | None => Raise IndexError
      | Some a =>
          if negb (q_mastered (read a w)) then Ok (Some i)
          else first_unmastered w range'
      end
  end.

Definition next_question : M bool := λ w,
  let start_index := current_question_index w + 1 in
  match first_unmastered w
          (py_range start_index (Z.of_nat (length (questions w)))) with
  | Ok (Some i) => (Ok true, with_current_question_index i w)
  | Ok None => (Ok false, w)
  | Raise e => (Raise e, w)
  end.

Definition prev_question : M bool := λ w,
  let start_index := current_question_index w - 1 in
  match first_unmastered w (py_range_down start_index) with
  | Ok (Some i) => (Ok true, with_current_question_index i w)
  | Ok None => (Ok false, w)
  | Raise e => (Raise e, w)
  end.

Definition prev_question_exists : M bool := λ w,
  match first_unmastered w (py_range_down (current_question_index w - 1)) with
  | Ok (Some _) => (Ok true, w)
  | Ok None => (Ok false, w)
  | Raise e => (Raise e, w)
  end.

Definition next_question_exists : M bool := λ w,
  match first_unmastered w
          (py_range (current_question_index w + 1)
             (Z.of_nat (length (questions w)))) with
  | Ok (Some _) => (Ok true, w)
  | Ok None => (Ok false, w)
  | Raise e => (Raise e, w)
  end.

(** The body of [record_answer] on the dict [q]. *)
Definition answer_question (is_correct : bool) (q : Question) : Question :=
  let q := set_answered (q_answered q + 1) q in
  if is_correct then
    let q := set_correct (q_correct q + 1) q in
    if bool_decide (2 ≤ q_correct q) && negb (q_mastered q)
    then set_mastered true q
    else q
  else
    let q := set_wrong (q_wrong q + 1) q in
    set_correct 0 q.

Definition record_answer (is_correct : bool) : M unit :=
  q ← get_current_question;
  match q with
  | Some a => modify (update a (answer_question is_correct))
  | None => mret tt
  end.

Definition get_wrong_questions (w : World) : list addr :=
  filter (λ a, 0 < q_wrong (read a w)) (questions w).

Definition get_marked_questions (w : World) : list addr :=
  filter (λ a, q_marked (read a w) = true) (questions w).

Definition get_progress (w : World) : Z * Z * Z * Z * Z :=
  let total := Z.of_nat (length (questions w)) in
  let answered :=
    Z.of_nat (length (filter (λ a, 0 < q_answered (read a w)) (questions w))) in
  let correct :=
    Z.of_nat (length (filter (λ a, 0 < q_correct (read a w)) (questions w))) in
  let mastered :=
    Z.of_nat (length (filter (λ a, q_mastered (read a w) = true) (questions w))) in
  let unmastered := total - mastered in
  (total, answered, correct, mastered, unmastered).

(** The body of the loop of [reset_progress]. *)
Definition reset_question (exclude_mastered : bool) (q : Question) : Question :=
  if exclude_mastered && q_mastered q then q
  else set_marked false (set_answered 0 q).

Definition reset_progress (exclude_mastered : bool) : M unit :=
  modify (λ w,
    foldl (λ w a, update a (reset_question exclude_mastered) w) w (questions w)).

(** The body of the loop of [release_mastered_questions_by_wrong_count]. *)
Definition releasable (threshold : Z) (q : Question) : bool :=
  q_mastered q && bool_decide (threshold ≤ q_wrong q).

Definition release_question (q : Question) : Question :=
  set_correct 0 (set_mastered false q).

Definition release_mastered_questions_by_wrong_count (threshold : Z) : M Z := λ w,
  let '(count, w') :=
    foldl (λ '(count, w) a,
             if releasable threshold (read a w)
             then (count + 1, update a release_question w)
             else (count, w))
          (0, w) (questions w) in
  (Ok count, w').

End QuestionManager.

(** The store operations as data, for statements about every operation. *)
Inductive store_op :=
| OpLoad (file_path : string) (df : DataFrame)
| OpSetCurrent (set_name : string)
| OpNext
| OpPrev
| OpRecordAnswer (is_correct : bool)
| OpResetProgress (exclude_mastered : bool)
| OpReleaseMastered (threshold : Z).

Definition run_store_op (o : store_op) : M unit :=
  match o with
  | OpLoad file_path df => QuestionManager.load_from_excel file_path df;; mret tt
  | OpSetCurrent set_name => QuestionManager.set_current_set set_name;; mret tt
  | OpNext => QuestionManager.next_question;; mret tt
  | OpPrev => QuestionManager.prev_question;; mret tt
  | OpRecordAnswer is_correct => QuestionManager.record_answer is_correct
  | OpResetProgress exclude_mastered =>
      QuestionManager.reset_progress exclude_mastered
  | OpReleaseMastered threshold =>
      QuestionManager.release_mastered_questions_by_wrong_count threshold;;
      mret tt
  end.

Definition run_store_ops (ops : list store_op) (w : World) : World :=
  foldl (λ w o, (run_store_op o w).2) w ops.

(** ** class DatabaseManager

    [user_progress] is kept in insertion order.  Column [value] of
    [app_state] is TEXT: an integer bound to it is stored as its decimal
    text, which is why [load_progress] reads it back through [int].  The
    question ids are handed back as they were bound. *)

Module DatabaseManager.

(** [int(b)] and [bool(n)] *)
Definition int_of_bool (b : bool) : Z := if b then 1 else 0.
Definition bool_of_int (n : Z) : bool := negb (n =? 0).

(** The decimal text of an integer, and [int(text)] on such text. *)
Definition text_of_int (n : Z) : string := NilZero.string_of_int (Z.to_int n).

Definition int_of_text (s : string) : result Z :=
  match NilZero.int_of_string s with
  | Some d => Ok (Z.of_int d)
  | None => Raise (ValueError [s])
  end.

(** The tuple [save_progress] inserts for one question. *)
Definition row_of_question (set_name : string) (q : Question) : ProgressRow :=
  {| r_question_id := q_id q; r_answered := q_answered q;
     r_correct := q_correct q; r_wrong := q_wrong q;
     r_marked := int_of_bool (q_marked q);
     r_mastered := int_of_bool (q_mastered q);
     r_set_name := set_name |}.

Definition position_key (set_name : string) : string :=
  "last_position_" +:+ set_name.

Definition save_progress (questions : list addr) (current_index : Z)
    (set_name : string) : M unit :=
  modify (λ w,
    let kept := filter (λ r, r_set_name r ≠ set_name) (user_progress w) in
    let inserted := (λ a, row_of_question set_name (read a w)) <$> questions in
    with_app_state
      (<["last_set" := set_name]>
         (<[position_key set_name := text_of_int current_index]> (app_state w)))
      (with_user_progress (kept ++ inserted) w)).

(** One fetched row: question_id, answered, correct, wrong, marked,
    mastered. *)
Definition fetched : Type := Cell * Z * Z * Z * Z * Z.

Definition fetch (r : ProgressRow) : fetched :=
  (r_question_id r, r_answered r, r_correct r, r_wrong r, r_marked r,
   r_mastered r).

Definition load_progress (set_name : string)
  : M (Z * option string * list fetched) := λ w,
  let rows :=
    fetch <$> filter (λ r, r_set_name r = set_name) (user_progress w) in
  let last_position :=
    match app_state w !! position_key set_name with
    | Some v => int_of_text v
    | None => Ok 0
    end in
  let last_set := app_state w !! "last_set" in
  match last_position with
  | Ok p => (Ok (p, last_set, rows), w)
  | Raise e => (Raise e, w)
  end.

End DatabaseManager.

(** ** class AnswerWidget *)

Module AnswerWidget.

(** The ASCII characters [str.strip] removes. *)
Definition is_space (c : ascii) : bool :=
  let n := nat_of_ascii c in
  bool_decide (n = 32 ∨ (9 ≤ n ∧ n ≤ 13) ∨ (28 ≤ n ∧ n ≤ 31))%nat.

Fixpoint lstrip (s : string) : string :=
  match s with
  | EmptyString => EmptyString
  | String c s' => if is_space c then lstrip s' else s
  end.

(** [text.strip() == ""] *)
Definition is_blank (s : string) : bool :=
  bool_decide (lstrip s = EmptyString).

(** The loop of [set_question] over the option dict: one button per option
    whose cell is neither missing nor blank, appended in that order. *)
Fixpoint add_option_buttons (options : list (string * Cell)) : M unit :=
  match options with
  | [] => mret tt
  | (key, text) :: options' =>
      match text with
      | CNaN => add_option_buttons options'
      | CInt _ => raise AttributeError
      | CStr t =>
          if is_blank t then add_option_buttons options'
          else
            modify (λ w,
              with_buttons
                (buttons w ++
                 [{| btn_text := key +:+ ". " +:+ t; btn_checked := false |}])
                w);;
            add_option_buttons options'
      end
  end.

Definition set_question (question : Question) : M unit :=
  modify (with_buttons []);;
  modify (with_is_multiple (bool_decide (q_type question = CStr "多选题")));;
  add_option_buttons (q_options question).

(** A click on the [k]-th button: a check box toggles; a radio button of the
    exclusive group becomes the only checked one. *)
Definition toggle (b : Button) : Button :=
  {| btn_text := btn_text b; btn_checked := negb (btn_checked b) |}.

Definition click (k : nat) : M unit :=
  modify (λ w,
    if is_multiple w then
      with_buttons (alter toggle k (buttons w)) w
    else if bool_decide (k < length (buttons w))%nat then
      with_buttons
        (imap (λ i b, {| btn_text := btn_text b;
                         btn_checked := bool_decide (i = k) |}) (buttons w)) w
    else w).

(** [btn.text()[0]] of every checked button, joined. *)
Fixpoint selected_letters (bs : list Button) : result string :=
  match bs with
  | [] => Ok EmptyString
  | b :: bs' =>
      if btn_checked b then
        match btn_text b with
        | EmptyString => Raise IndexError
        | String c _ =>
            rest ← selected_letters bs';
            mret (String c rest)
        end
      else selected_letters bs'
  end.

Definition get_selected_answers : M string := λ w,
  (selected_letters (buttons w), w).

End AnswerWidget.

(** ** class MainWindow

    Rendering, message boxes, the single-shot timers and the delivery of Qt
    signals are left out; what the methods do to the question manager, the
    database and the answer widget is kept, in the order of the code.  The
    text of the set selector and the results of dialogs are arguments. *)

Module MainWindow.

(** [{q['id']: q for q in self.question_manager.questions}]: for a key, the
    last question of the list that carries it. *)
Definition id_to_question (w : World) (key : Cell) : option addr :=
  last (filter (λ a, q_id (read a w) = key) (questions w)).

(** The five assignments made for a row that has found its question. *)
Definition overwrite (answered correct wrong marked mastered : Z) (q : Question)
  : Question :=
  set_mastered (DatabaseManager.bool_of_int mastered)
    (set_marked (DatabaseManager.bool_of_int marked)
       (set_wrong wrong (set_correct correct (set_answered answered q)))).

(** The body of the loop that applies one fetched row. *)
Definition apply_row (index : Cell → option addr) (w : World)
    (row : DatabaseManager.fetched) : World :=
  let '(q_id, answered, correct, wrong, marked, mastered) := row in
  match index q_id with
  | Some a => update a (overwrite answered correct wrong marked mastered) w
  | None => w
  end.

(** [if progress_rows: ...], the block shared by [load_question_sets] and
    [change_question_set]. *)
Definition apply_progress (progress_rows : list DatabaseManager.fetched)
  : M unit :=
  modify (λ w,
    match progress_rows with
    | [] => w
    | _ => foldl (apply_row (id_to_question w)) w progress_rows
    end).

Definition show_question : M unit :=
  question ← QuestionManager.get_current_question;
  match question with
  | None => mret tt
  | Some a =>
      w ← get_world;
      AnswerWidget.set_question (read a w);;
      QuestionManager.prev_question_exists;;
      QuestionManager.next_question_exists;;
      modify (with_showing_answer false)
  end.

Definition save_current_progress : M unit :=
  w ← get_world;
  if initialized w && negb (bool_decide (current_set w = ""))
     && negb (bool_decide (questions w = []))
  then DatabaseManager.save_progress (questions w) (current_question_index w)
         (current_set w)
  else mret tt.

(** The steps both branches of [load_question_sets] and
    [change_question_set] take once the set is chosen. *)
Definition restore_set (set_name : string) : M unit :=
  QuestionManager.set_current_set set_name;;
  '(last_position, _, progress_rows) ← DatabaseManager.load_progress set_name;
  apply_progress progress_rows;;
  modify (with_current_question_index last_position).

(** [question_files] is what the two globs found, each with the frame read
    from it. *)
Definition load_question_sets (question_files : list (string * DataFrame))
  : M unit :=
  try_except
    (match question_files with
     | [] => mret tt
     | _ =>
         mapM (λ '(file_path, df), QuestionManager.load_from_excel file_path df)
           question_files;;
         w ← get_world;
         let last_set := app_state w !! "last_set" in
         match last_set with
         | Some name =>
             if negb (bool_decide (name = ""))
                && bool_decide (is_Some (dict_get (question_sets w) name))
             then restore_set name
             else
               match dict_keys (question_sets w) with
               | first_set :: _ => restore_set first_set
               | [] => mret tt
               end
         | None =>
             match dict_keys (question_sets w) with
             | first_set :: _ => restore_set first_set
             | [] => mret tt
             end
         end;;
         show_question;;
         modify (with_initialized true)
     end)
    (λ _, mret tt).

(** [__init__]: a new question manager over the database file left by the
    sessions before. *)
Definition init (question_files : list (string * DataFrame)) : M unit :=
  modify QuestionManager.init;;
  modify (with_buttons []);;
  modify (with_is_multiple false);;
  modify (with_showing_answer false);;
  modify (with_initialized false);;
  load_question_sets question_files.

Definition show_first_unmastered_question : M unit :=
  w ← get_world;
  match QuestionManager.first_unmastered w
          (py_range 0 (Z.of_nat (length (questions w)))) with
  | Ok (Some i) => modify (with_current_question_index i)
  | Ok None => mret tt
  | Raise e => raise e
  end;;
  show_question.

(** [set_name] is the current text of the set selector. *)
Definition change_question_set (set_name : string) : M unit :=
  w ← get_world;
  if negb (bool_decide (set_name = ""))
     && bool_decide (is_Some (dict_get (question_sets w) set_name))
  then
    save_current_progress;;
    restore_set set_name;;
    show_question
  else mret tt.

(** [selected == question['answer']] *)
Definition is_correct (selected : string) (question : Question) : bool :=
  bool_decide (CStr selected = q_answer question).

Definition submit_answer : M unit :=
  w ← get_world;
  if showing_answer w then mret tt
  else
    question ← QuestionManager.get_current_question;
    match question with
    | None => mret tt
    | Some a =>
        selected ← AnswerWidget.get_selected_answers;
        if bool_decide (selected = EmptyString) then mret tt
        else
          w ← get_world;
          QuestionManager.record_answer (is_correct selected (read a w));;
          modify (with_showing_answer true)
    end.

Definition next_question : M unit :=
  found ← QuestionManager.next_question;
  if found : bool then show_question
  else
    QuestionManager.reset_progress true;;
    show_first_unmastered_question.

Definition prev_question : M unit :=
  found ← QuestionManager.prev_question;
  if found : bool then show_question else mret tt.

(** [checked] is the state of the mark button after the click. *)
Definition toggle_mark_question (checked : bool) : M unit :=
  question ← QuestionManager.get_current_question;
  match question with
  | Some a => modify (update a (set_marked checked))
  | None => mret tt
  end.


(** [threshold] and [ok] are what the input dialog returned. *)
Definition release_mastered_questions (threshold : Z) (ok : bool) : M unit :=
  w ← get_world;
  match filter (λ a, q_mastered (read a w) = true) (questions w) with
  | [] => mret tt
  | _ =>
      if ok then
        QuestionManager.release_mastered_questions_by_wrong_count threshold;;
        QuestionManager.reset_progress true;;
        show_first_unmastered_question
      else mret tt
  end.

Definition closeEvent : M unit :=
  w ← get_world;
  if initialized w then save_current_progress else mret tt.

End MainWindow.

(** ** transformer.py: the answer field *)

Module Transformer.

Definition is_option_letter (c : ascii) : bool :=
  let n := nat_of_ascii c in bool_decide (65 ≤ n ∧ n ≤ 68)%nat.

(** Group 1 of the answer pattern on the text that follows the marker and
    its blanks, when that text starts with an option letter: the longest run
    of letters A to D, in the order they are written. *)
Fixpoint answer_letters (s : string) : string :=
  match s with
  | EmptyString => EmptyString
  | String c s' =>
      if is_option_letter c then String c (answer_letters s') else EmptyString
  end.

End Transformer.

(** * Predicates the statements use *)

(** [a] is the address of a dict that exists. *)
Definition live (w : World) (a : addr) : Prop := (a < length (objs w))%nat.

#[global] Instance live_dec (w : World) (a : addr) : Decision (live w a).
Proof. unfold live. apply _. Defined.

(** A list of questions holds existing dicts, each of them once. *)
Definition distinct_live (w : World) (l : list addr) : Prop :=
  NoDup l ∧ Forall (live w) l.

(** Every list the question manager holds, the current one and the
    registered ones, is a list of distinct existing dicts. *)
Definition lists_distinct_live (w : World) : Prop :=
  distinct_live w (questions w) ∧
  ∀ name l, dict_get (question_sets w) name = Some l → distinct_live w l.

(** [w'] differs from [w] in the contents of the question dicts only. *)
Definition only_objs_changed (w w' : World) : Prop :=
  w' = with_objs (objs w') w.

(** A loop that rewrites every dict of a list in place. *)
Definition update_all (f : Question → Question) (l : list addr) (w : World)
  : World :=
  foldl (λ w a, update a f w) w l.


(** What a question has become after a list of submissions, oldest first. *)
Definition submissions (answers : list bool) (q : Question) : Question :=
  foldl (λ q is_correct, QuestionManager.answer_question is_correct q) q answers.

(** The same submissions made through the store, one call each. *)
Definition record_answers (answers : list bool) : M unit :=
  foldr (λ is_correct rest, QuestionManager.record_answer is_correct;; rest)
    (mret tt) answers.

(** In the words of the specification: some two adjacent submissions of the
    list are both correct, and the number of correct submissions since the
    last wrong one. *)
Fixpoint two_in_a_row (answers : list bool) : bool :=
  match answers with
  | [] => false
  | b :: rest =>
      (b && match rest with b' :: _ => b' | [] => false end)
      || two_in_a_row rest
  end.

Fixpoint leading_correct (answers : list bool) : nat :=
  match answers with
  | true :: rest => S (leading_correct rest)
  | _ => 0
  end.

Definition streak (answers : list bool) : Z :=
  Z.of_nat (leading_correct (reverse answers)).

(** What the loop of the release does to one dict, as one function. *)
Definition release_if_due (threshold : Z) (q : Question) : Question :=
  if QuestionManager.releasable threshold q
  then QuestionManager.release_question q else q.

(** The state a successful [load_from_excel] leaves, given the dicts it
    built. *)
Definition loaded_world (file_path : string) (qs : list Question) (w : World)
  : World :=
  let set_name := split_first "." (basename file_path) in
  with_current_file_path (Some file_path)
    (with_current_set set_name
       (with_question_sets
          (dict_set (question_sets w) set_name
             (seq (length (objs w)) (length qs)))
          (with_objs (objs w ++ qs) w))).

(** The cursor points into the current list, or is 0 on an empty one. *)
Definition valid_cursor (w : World) : Prop :=
  (questions w = [] ∧ current_question_index w = 0) ∨
  (0 ≤ current_question_index w < Z.of_nat (length (questions w))).

(** The current list has a question at position [i] and it is not
    mastered. *)
#[global] Instance valid_cursor_dec (w : World) : Decision (valid_cursor w).
Proof. unfold valid_cursor. apply _. Defined.

Definition unmastered_at (w : World) (i : nat) : Prop :=
  ∃ a, questions w !! i = Some a ∧ q_mastered (read a w) = false.

(** In the words of the specification: the question is mastered and its
    [wrong] has reached the threshold. *)
Definition due (threshold : Z) (q : Question) : Prop :=
  q_mastered q = true ∧ threshold ≤ q_wrong q.

#[global] Instance due_dec (threshold : Z) (q : Question)
  : Decision (due threshold q).
Proof. unfold due. apply _. Defined.

(** In the words of the specification: the reset skips the question. *)
Definition kept_by_reset (exclude_mastered : bool) (q : Question) : Prop :=
  exclude_mastered = true ∧ q_mastered q = true.

(** The clicks of a list, first to last. *)
Definition clicks (ks : list nat) : M unit :=
  foldr (λ k rest, AnswerWidget.click k;; rest) (mret tt) ks.

(** What those clicks do to the check boxes of a multiple-choice question. *)
Definition ticked (ks : list nat) (bs : list Button) : list Button :=
  foldl (λ bs k, alter AnswerWidget.toggle k bs) bs ks.

(** The first character of a text (the option letter of a button). *)
Definition head_letter (s : string) : ascii :=
  match s with
  | String c _ => c
  | EmptyString => Ascii.zero
  end.

(** The letters of the checked buttons, in the order of the buttons. *)
Definition checked_letters (bs : list Button) : list ascii :=
  (λ b, head_letter (btn_text b)) <$> filter (λ b, btn_checked b = true) bs.

(** In the words of the specification: the letters of the string are in
    ascending order A, B, C, D, none of them twice. *)
Definition ascending (s : string) : Prop :=
  list_ascii_of_string s `sublist_of` ["A"; "B"; "C"; "D"]%char.


(** The identity of the question at an address. *)
Definition id_at (w : World) (a : addr) : Cell := q_id (read a w).


(** * Example inputs *)

Module Examples.

Definition row (kind id : string) (number : Z) (answer : string) : list Cell :=
  [CStr kind; CStr "初级工"; CStr id; CInt number; CStr "题干";
   CStr "甲"; CStr "乙"; CNaN; CNaN; CStr answer].

(** A bank of three questions, and the same file cut down to one. *)
Definition bank3 : DataFrame :=
  {| df_columns := QuestionManager.required_columns;
     df_rows := [row "多选题" "2.1.1" 1 "AB"; row "多选题" "2.1.2" 2 "BA";
                 row "单选题" "1.1.3" 3 "A"] |}.

Definition bank1 : DataFrame :=
  {| df_columns := QuestionManager.required_columns;
     df_rows := [row "多选题" "2.1.1" 1 "AB"] |}.

Definition path : string := "/home/user/开关题库.xlsx".

(** Before the first start: no objects, an empty database. *)
Definition blank : World :=
  {| objs := []; questions := []; current_question_index := 0;
     question_sets := []; current_set := ""; current_file_path := None;
     user_progress := []; app_state := ∅; initialized := false;
     showing_answer := false; is_multiple := false; buttons := [] |}.

Definition run {A} (m : M A) (w : World) : World := (m w).2.

(** The first session, just started on [bank3]. *)
Definition started : World := run (MainWindow.init [(path, bank3)]) blank.

(** The first question answered correctly once, then the cursor on the
    second and that one answered correctly twice and wrongly in between, and
    the cursor brought back: the second question is mastered, with one
    wrong answer on record. *)
Definition practised : World :=
  run (QuestionManager.record_answer true;;
       QuestionManager.next_question;;
       QuestionManager.record_answer false;;
       QuestionManager.record_answer true;;
       QuestionManager.record_answer true;;
       QuestionManager.prev_question) started.

(** The first session with the cursor moved on to the second question. *)
Definition browsing : World := run QuestionManager.next_question started.

Definition other_path : string := "/home/user/新题库.xlsx".

(** The first session taken to the third question and closed. *)
Definition closed : World :=
  run (MainWindow.next_question;; MainWindow.next_question;;
       MainWindow.closeEvent) started.

(** The next start, after the bank file was cut down to one question. *)
Definition restarted : World := run (MainWindow.init [(path, bank1)]) closed.

(** Within one session: on the third question the cut-down file is loaded
    under the same name, then the set is selected in the selector. *)
Definition reselected : World :=
  run (MainWindow.next_question;; MainWindow.next_question;;
       QuestionManager.load_from_excel path bank1;;
       MainWindow.change_question_set "开关题库") started.

(** The second question is on display (its stored answer is BA) and the
    user ticks B, then A. *)
Definition both_ticked : World :=
  run (MainWindow.next_question;; AnswerWidget.click 1;; AnswerWidget.click 0)
    started.





End Examples.

(** * The rest of the persistence layer and of the window *)

(** ** class DatabaseManager: the whole-store snapshot *)



(** [x == y] on two cells: a missing cell (NaN) equals nothing, itself
    included. *)
Definition py_eq (x y : Cell) : Prop := x = y ∧ x ≠ CNaN.

#[global] Instance py_eq_dec (x y : Cell) : Decision (py_eq x y).
Proof. unfold py_eq. apply _. Defined.



(** ** class MainWindow: opening a question of the wrong list *)

(** [q_id] is the id stored in the list item that was double-clicked. *)
Definition open_wrong_question (q_id : Cell) : M unit :=
  w ← get_world;
  match list_find (λ a, py_eq (id_at w a) q_id) (questions w) with
  | Some (idx, _) =>
      modify (with_current_question_index (Z.of_nat idx));;
      MainWindow.show_question
  | None => mret tt
  end.

(** * More predicates the statements use *)

(** The counters of a question are not negative, and an unmastered question
    has fewer than two correct answers in a row. *)
Definition counters_ok (q : Question) : Prop :=
  0 ≤ q_answered q ∧ 0 ≤ q_correct q ∧ 0 ≤ q_wrong q ∧
  (q_mastered q = false → q_correct q ≤ 1).

(** [w'] differs from [w] in the state of the answer widget and in the
    answer-showing flag only. *)
Definition widget_only (w w' : World) : Prop :=
  w' = with_buttons (buttons w')
         (with_is_multiple (is_multiple w')
            (with_showing_answer (showing_answer w') w)).

(** The buttons an option dict is shown with: one per option whose cell is
    a text that is not blank, unchecked, labelled with the key and the
    text. *)
Definition shown_buttons (options : list (string * Cell)) : list Button :=
  omap (λ '(key, text),
          match text with
          | CStr t =>
              if AnswerWidget.is_blank t then None
              else Some {| btn_text := key +:+ ". " +:+ t;
                           btn_checked := false |}
          | _ => None
          end) options.

(** No option cell holds a number. *)
Definition options_are_text (options : list (string * Cell)) : Prop :=
  Forall (λ o, ∀ n, o.2 ≠ CInt n) options.

#[global] Instance options_are_text_dec (options : list (string * Cell))
  : Decision (options_are_text options).
Proof.
  unfold options_are_text. apply Forall_dec. intros [key text].
  destruct text as [t|n|]; [left|right|left]; simpl; try done.
  intros H. by apply (H n).
Defined.

(** The cell holds a text. *)
Definition is_text (c : Cell) : Prop :=
  match c with CStr _ => True | _ => False end.

#[global] Instance is_text_dec (c : Cell) : Decision (is_text c).
Proof. destruct c; simpl; apply _. Defined.

(** [text[0]] as [get_selected_answers] reads it off a button. *)
Definition first_letter (text : string) : result string :=
  match text with
  | String c _ => Ok (String c EmptyString)
  | EmptyString => Raise IndexError
  end.



(** ** A session on two banks *)



(** * Properties *)

(** ** The store *)

Lemma with_objs_same (w : World) : with_objs (objs w) w = w.
Proof. by destruct w. Qed.

Lemma only_objs_changed_refl (w : World) : only_objs_changed w w.
Proof. unfold only_objs_changed. by rewrite with_objs_same. Qed.

Lemma only_objs_changed_trans (w1 w2 w3 : World) :
  only_objs_changed w1 w2 → only_objs_changed w2 w3 → only_objs_changed w1 w3.
Proof.
  unfold only_objs_changed. intros H12 H23.
  rewrite H23, H12. by destruct w1.
Qed.

Lemma update_only_objs (a : addr) (f : Question → Question) (w : World) :
  only_objs_changed w (update a f w).
Proof. by destruct w. Qed.

Lemma read_update_eq (a : addr) (f : Question → Question) (w : World) :
  live w a → read a (update a f w) = f (read a w).
Proof.
  intros Ha. unfold read, update. destruct w; simpl in *.
  by apply list_lookup_total_insert_eq.
Qed.

Lemma read_update_ne (a b : addr) (f : Question → Question) (w : World) :
  a ≠ b → read b (update a f w) = read b w.
Proof.
  intros Hab. unfold read, update. destruct w; simpl in *.
  by apply list_lookup_total_insert_ne.
Qed.

Lemma length_objs_update (a : addr) (f : Question → Question) (w : World) :
  length (objs (update a f w)) = length (objs w).
Proof. unfold update. destruct w; simpl. apply length_insert. Qed.

Lemma live_update (a b : addr) (f : Question → Question) (w : World) :
  live (update a f w) b ↔ live w b.
Proof. unfold live. by rewrite length_objs_update. Qed.

Lemma update_id (a : addr) (f : Question → Question) (w : World) :
  f (read a w) = read a w → update a f w = w.
Proof.
  intros Hf. unfold update. rewrite Hf.
  rewrite list_insert_id'; [apply with_objs_same|].
  intros Ha. unfold read. by apply list_lookup_lookup_total_lt.
Qed.

Lemma update_all_cons (f : Question → Question) a (l : list addr) (w : World) :
  update_all f (a :: l) w = update_all f l (update a f w).
Proof. reflexivity. Qed.

Lemma update_all_only_objs (f : Question → Question) (l : list addr) (w : World) :
  only_objs_changed w (update_all f l w).
Proof.
  revert w. induction l as [|a l IH]; intros w.
  - apply only_objs_changed_refl.
  - rewrite update_all_cons.
    eapply only_objs_changed_trans; [apply update_only_objs|apply IH].
Qed.

(** ** Answering *)

Lemma answer_question_fields (is_correct : bool) (q : Question) :
  let q' := QuestionManager.answer_question is_correct q in
  q_answered q' = q_answered q + 1 ∧
  (if is_correct then
     q_correct q' = q_correct q + 1 ∧ q_wrong q' = q_wrong q ∧
     q_mastered q' = q_mastered q || bool_decide (2 ≤ q_correct q + 1)
   else
     q_wrong q' = q_wrong q + 1 ∧ q_correct q' = 0 ∧
     q_mastered q' = q_mastered q) ∧
  q_marked q' = q_marked q ∧ same_content q q'.
Proof.
  unfold QuestionManager.answer_question, same_content.
  destruct is_correct; simpl.
  - destruct (bool_decide (2 ≤ q_correct q + 1)) eqn:H2,
      (q_mastered q) eqn:Hm; simpl; rewrite ?H2, ?Hm; simpl; auto 15.
  - auto 15.
Qed.

Lemma record_answer_on_current (is_correct : bool) (w : World) (a : addr) :
  QuestionManager.get_current_question w = (Ok (Some a), w) →
  QuestionManager.record_answer is_correct w =
    (Ok tt, update a (QuestionManager.answer_question is_correct) w).
Proof.
  intros Hcur. unfold QuestionManager.record_answer, mbind, M_bind.
  by rewrite Hcur.
Qed.

Lemma get_current_question_empty (w : World) :
  questions w = [] → QuestionManager.get_current_question w = (Ok None, w).
Proof. intros H. unfold QuestionManager.get_current_question. by rewrite H. Qed.

(** C1.  When a current question exists, [record_answer] adds 1 to its
    [answered]; a correct answer adds 1 to [correct] and sets [mastered] as
    soon as the new [correct] is at least 2 (a question already mastered
    stays so); a wrong answer adds 1 to [wrong] and puts [correct] back to
    0; nothing else changes, in this question or anywhere else.  With an
    empty current list [record_answer] changes nothing. *)
Theorem record_answer_spec (is_correct : bool) (w : World) :
  (∀ a : addr,
     QuestionManager.get_current_question w = (Ok (Some a), w) → live w a →
     ∃ w', QuestionManager.record_answer is_correct w = (Ok tt, w') ∧
       only_objs_changed w w' ∧
       (∀ b, b ≠ a → read b w' = read b w) ∧
       let q := read a w in
       let q' := read a w' in
       q_answered q' = q_answered q + 1 ∧
       (if is_correct then
          q_correct q' = q_correct q + 1 ∧ q_wrong q' = q_wrong q ∧
          q_mastered q' = q_mastered q || bool_decide (2 ≤ q_correct q')
        else
          q_wrong q' = q_wrong q + 1 ∧ q_correct q' = 0 ∧
          q_mastered q' = q_mastered q) ∧
       q_marked q' = q_marked q ∧ same_content q q') ∧
  (questions w = [] →
   QuestionManager.record_answer is_correct w = (Ok tt, w)).
Proof.
  split.
  - intros a Hcur Ha.
    exists (update a (QuestionManager.answer_question is_correct) w).
    split; [by apply record_answer_on_current|].
    split; [apply update_only_objs|].
    split; [intros b Hb; by apply read_update_ne|].
    simpl. rewrite read_update_eq by done.
    pose proof (answer_question_fields is_correct (read a w)) as H.
    simpl in H. destruct is_correct.
    + destruct H as (H1 & (H2 & H3 & H4) & H5 & H6).
      rewrite H2. auto 10.
    + exact H.
  - intros Hempty. unfold QuestionManager.record_answer, mbind, M_bind.
    by rewrite get_current_question_empty.
Qed.

Lemma record_answer_spec_witness :
  QuestionManager.get_current_question Examples.started
    = (Ok (Some 0%nat), Examples.started) ∧
  live Examples.started 0%nat ∧
  ∃ w', QuestionManager.record_answer true Examples.started = (Ok tt, w') ∧
        q_answered (read 0%nat w') = 1 ∧ q_correct (read 0%nat w') = 1.
Proof.
  assert (Hcur : QuestionManager.get_current_question Examples.started
                 = (Ok (Some 0%nat), Examples.started))
    by (vm_compute; reflexivity).
  assert (Hlive : live Examples.started 0%nat) by (vm_compute; lia).
  split; [exact Hcur|]. split; [exact Hlive|].
  destruct (record_answer_spec true Examples.started) as [H _].
  destruct (H 0%nat Hcur Hlive) as (w' & Hrun & _ & _ & Ha & (Hc & _) & _).
  exists w'. split; [exact Hrun|]. split.
  - rewrite Ha. vm_compute. reflexivity.
  - rewrite Hc. vm_compute. reflexivity.
Defined.

(** ** Mastery under answering *)

Lemma read_update (a b : addr) (f : Question → Question) (w : World) :
  read b (update a f w) =
    if decide (a = b ∧ live w a) then f (read a w) else read b w.
Proof.
  unfold read, update, live. destruct w; simpl.
  rewrite list_lookup_total_insert. by repeat case_decide.
Qed.

Lemma update_update (a : addr) (f g : Question → Question) (w : World) :
  live w a → update a f (update a g w) = update a (λ q, f (g q)) w.
Proof.
  intros Ha. unfold update at 1 3. rewrite read_update_eq by done.
  unfold update. destruct w; simpl. by rewrite list_insert_insert_eq.
Qed.

(** A property of dicts that [f] keeps is kept by a loop of [f]. *)
Lemma update_all_keeps (P : Question → Prop) (f : Question → Question)
    (l : list addr) (w : World) (b : addr) :
  (∀ q, P q → P (f q)) → P (read b w) → P (read b (update_all f l w)).
Proof.
  intros Hf. revert w. induction l as [|a l IH]; intros w Hb; [done|].
  rewrite update_all_cons. apply IH. rewrite read_update.
  case_decide as H; [|done]. destruct H as [-> _]. by apply Hf.
Qed.

Lemma submissions_snoc (answers : list bool) (b : bool) (q : Question) :
  submissions (answers ++ [b]) q
  = QuestionManager.answer_question b (submissions answers q).
Proof. unfold submissions. by rewrite foldl_snoc. Qed.

Lemma streak_snoc (answers : list bool) (b : bool) :
  streak (answers ++ [b]) = if b then streak answers + 1 else 0.
Proof.
  unfold streak. rewrite reverse_snoc. destruct b; simpl; [lia|done].
Qed.

Lemma two_in_a_row_snoc (answers : list bool) (b : bool) :
  two_in_a_row (answers ++ [b])
  = two_in_a_row answers || (b && bool_decide (1 ≤ streak answers)).
Proof.
  induction answers as [|c [|c' rest] IH].
  - by destruct b.
  - unfold streak. destruct c, b; reflexivity.
  - change ((c :: c' :: rest) ++ [b]) with (c :: (c' :: rest) ++ [b]).
    change (two_in_a_row (c :: (c' :: rest) ++ [b]))
      with (c && c' || two_in_a_row ((c' :: rest) ++ [b])).
    rewrite IH.
    change (two_in_a_row (c :: c' :: rest))
      with (c && c' || two_in_a_row (c' :: rest)).
    assert (Hs : bool_decide (1 ≤ streak (c :: c' :: rest))
                 = bool_decide (1 ≤ streak (c' :: rest))).
    { unfold streak. rewrite (reverse_cons _ c).
      generalize (reverse (c' :: rest)) (reverse_cons rest c').
      intros l Hl. destruct l as [|[] l]; simpl.
      - by destruct (reverse rest).
      - apply bool_decide_ext. lia.
      - done. }
    rewrite Hs. by rewrite orb_assoc.
Qed.

Lemma submissions_mastery (answers : list bool) (q0 : Question) :
  q_correct q0 = 0 → q_mastered q0 = false →
  q_mastered (submissions answers q0) = two_in_a_row answers ∧
  q_correct (submissions answers q0) = streak answers.
Proof.
  intros Hc Hm. induction answers as [|b answers [IHm IHc]] using rev_ind.
  - by split.
  - rewrite submissions_snoc, two_in_a_row_snoc, streak_snoc.
    pose proof (answer_question_fields b (submissions answers q0)) as H.
    simpl in H. destruct b.
    + destruct H as (_ & (H2 & _ & H4) & _). rewrite H2, H4, IHm, IHc.
      split; [|done]. simpl. f_equal. apply bool_decide_ext. lia.
    + destruct H as (_ & (_ & H3 & H4) & _). rewrite H3, H4, IHm.
      split; [|done]. simpl. by rewrite orb_false_r.
Qed.

Lemma streak_nonneg (answers : list bool) : 0 ≤ streak answers.
Proof. unfold streak. lia. Qed.

Lemma record_answers_on_current (answers : list bool) (w : World) (a : addr) :
  QuestionManager.get_current_question w = (Ok (Some a), w) → live w a →
  record_answers answers w = (Ok tt, update a (submissions answers) w).
Proof.
  revert w. induction answers as [|b answers IH]; intros w Hcur Ha.
  - simpl. unfold mret, M_ret. f_equal. symmetry. by apply update_id.
  - simpl. unfold mbind, M_bind.
    rewrite (record_answer_on_current b w a Hcur).
    rewrite IH.
    + by rewrite update_update.
    + unfold QuestionManager.get_current_question in *. simpl.
      destruct (questions w); [done|].
      destruct (py_index _ _); [|done]. by simplify_eq.
    + by apply live_update.
Qed.

(** ** What each store operation does to the dicts *)

Lemma read_update_all_idem (f : Question → Question) (l : list addr)
    (w : World) (b : addr) :
  (∀ q, f (f q) = f q) →
  read b (update_all f l w) =
    if decide (b ∈ l ∧ live w b) then f (read b w) else read b w.
Proof.
  intros Hf. revert w. induction l as [|a l IH]; intros w.
  - rewrite decide_False; [done|]. intros [H _]. by apply elem_of_nil in H.
  - rewrite update_all_cons, IH, read_update.
    assert (Hl : live (update a f w) b ↔ live w b) by apply live_update.
    destruct (decide (live w b)) as [Hb|Hb].
    + destruct (decide (a = b)) as [->|Hab].
      * rewrite (decide_True (P := b = b ∧ _)) by done.
        rewrite (decide_True (P := b ∈ b :: l ∧ _)) by (split; [left|done]).
        destruct (decide (b ∈ l ∧ live (update b f w) b)); [apply Hf|done].
      * rewrite (decide_False (P := a = b ∧ _)) by (by intros [? _]).
        destruct (decide (b ∈ l)) as [Hin|Hin].
        -- rewrite !decide_True; [done| |]; split; try done; [by right|by apply Hl].
        -- rewrite !decide_False; [done| |]; intros [H _]; [|done].
           apply elem_of_cons in H as [?|?]; by subst.
    + rewrite (decide_False (P := a = b ∧ _)) by (intros [-> ?]; done).
      rewrite !decide_False; [done| |]; intros [_ H]; [done|by apply Hl in H].
Qed.

Lemma load_from_excel_run (file_path : string) (df : DataFrame) (w : World) :
  QuestionManager.load_from_excel file_path df w =
    if bool_decide
         (Forall (λ col, col ∈ df_columns df) QuestionManager.required_columns)
    then
      match mapM (QuestionManager.question_of_row (df_columns df))
              (df_rows df) with
      | Ok qs =>
          (Ok (true, QuestionManager.Loaded (length qs)),
           loaded_world file_path qs w)
      | Raise e => (Ok (false, QuestionManager.LoadFailed e), w)
      end
    else
      (Ok (false,
           QuestionManager.LoadFailed
             (ValueError
                (filter (λ col, col ∉ df_columns df)
                   QuestionManager.required_columns))), w).
Proof.
  unfold QuestionManager.load_from_excel, try_except.
  case_bool_decide; [|done].
  unfold mbind, M_bind, lift.
  destruct (mapM _ _) as [qs|e]; [|done].
  simpl. by rewrite length_seq.
Qed.

Lemma release_fold_world (t : Z) (l : list addr) (c : Z) (w : World) :
  (foldl (λ '(count, w) a,
            if QuestionManager.releasable t (read a w)
            then (count + 1, update a QuestionManager.release_question w)
            else (count, w)) (c, w) l).2
  = update_all (release_if_due t) l w.
Proof.
  revert c w. induction l as [|a l IH]; intros c w; [done|].
  rewrite update_all_cons. simpl.
  destruct (QuestionManager.releasable t (read a w)) eqn:Hr; rewrite IH.
  - f_equal. unfold update, release_if_due. by rewrite Hr.
  - f_equal. symmetry. apply update_id. unfold release_if_due. by rewrite Hr.
Qed.

Lemma release_fold_count (t : Z) (l : list addr) (c : Z) (w : World) :
  NoDup l →
  (foldl (λ '(count, w) a,
            if QuestionManager.releasable t (read a w)
            then (count + 1, update a QuestionManager.release_question w)
            else (count, w)) (c, w) l).1
  = c + Z.of_nat
          (length (filter (λ a, QuestionManager.releasable t (read a w) = true) l)).
Proof.
  intros Hnd. revert c w.
  induction Hnd as [|a l Ha Hnd IH]; intros c w; [simpl; lia|].
  simpl. destruct (QuestionManager.releasable t (read a w)) eqn:Hr.
  - rewrite IH, filter_cons_True by done. simpl.
    assert (Hf : filter (λ a0, QuestionManager.releasable t
                                 (read a0 (update a QuestionManager.release_question w))
                               = true) l
                 = filter (λ a0, QuestionManager.releasable t (read a0 w) = true) l).
    { clear IH. induction l as [|b l IHl]; [done|].
      apply not_elem_of_cons in Ha as [Hab Ha].
      apply NoDup_cons in Hnd as [_ Hnd].
      rewrite !filter_cons, read_update_ne by done.
      rewrite IHl by done. done. }
    rewrite Hf. lia.
  - rewrite IH, filter_cons_False by (by rewrite Hr). done.
Qed.

Lemma release_run (t : Z) (w : World) :
  QuestionManager.release_mastered_questions_by_wrong_count t w =
    (Ok (foldl (λ '(count, w) a,
                  if QuestionManager.releasable t (read a w)
                  then (count + 1, update a QuestionManager.release_question w)
                  else (count, w)) (0, w) (questions w)).1,
     update_all (release_if_due t) (questions w) w).
Proof.
  unfold QuestionManager.release_mastered_questions_by_wrong_count.
  rewrite <- (release_fold_world t (questions w) 0 w).
  by destruct (foldl _ _ _).
Qed.

Lemma release_if_due_idem (t : Z) (q : Question) :
  release_if_due t (release_if_due t q) = release_if_due t q.
Proof.
  unfold release_if_due.
  destruct (QuestionManager.releasable t q) eqn:Hr; [|by rewrite Hr].
  by unfold QuestionManager.releasable, QuestionManager.release_question.
Qed.

Lemma reset_question_idem (e : bool) (q : Question) :
  QuestionManager.reset_question e (QuestionManager.reset_question e q)
  = QuestionManager.reset_question e q.
Proof.
  unfold QuestionManager.reset_question.
  destruct (e && q_mastered q) eqn:H; [by rewrite H|].
  simpl. by rewrite H.
Qed.

Lemma read_loaded_world (file_path : string) (qs : list Question)
    (w : World) (b : addr) :
  live w b → read b (loaded_world file_path qs w) = read b w.
Proof. intros Hb. unfold read. simpl. by apply lookup_total_app_l. Qed.

Lemma read_not_live (w : World) (b : addr) :
  ¬ live w b → read b w = inhabitant.
Proof.
  intros Hb. unfold read, live in *.
  rewrite list_lookup_total_alt, lookup_ge_None_2; [done|lia].
Qed.

(** Among the store operations only the release takes [mastered] away, and
    only from a mastered question of the current list whose [wrong] has
    reached the threshold. *)
Lemma store_op_clears_mastered (o : store_op) (w : World) (b : addr) :
  q_mastered (read b w) = true →
  q_mastered (read b (run_store_op o w).2) = false →
  ∃ t, o = OpReleaseMastered t ∧ b ∈ questions w ∧
       t ≤ q_wrong (read b w) ∧
       q_correct (read b (run_store_op o w).2) = 0.
Proof.
  intros Hm Hm'.
  assert (Hlive : live w b).
  { destruct (decide (live w b)) as [|Hn]; [done|].
    rewrite (read_not_live _ _ Hn) in Hm. done. }
  destruct o as [file_path df|name| | |is_correct|e|t];
    unfold run_store_op, mbind, M_bind in Hm'.
  - exfalso. rewrite load_from_excel_run in Hm'.
    case_bool_decide; [|simpl in Hm'; congruence].
    destruct (mapM _ _) as [qs|err]; simpl in Hm'; [|congruence].
    rewrite read_loaded_world in Hm' by done. congruence.
  - exfalso. unfold QuestionManager.set_current_set in Hm'.
    destruct (dict_get _ _); simpl in Hm'; [|congruence].
    change (q_mastered (read b w) = false) in Hm'. congruence.
  - exfalso. unfold QuestionManager.next_question in Hm'.
    destruct (QuestionManager.first_unmastered _ _) as [[i|]|]; simpl in Hm';
      try congruence.
    change (q_mastered (read b w) = false) in Hm'. congruence.
  - exfalso. unfold QuestionManager.prev_question in Hm'.
    destruct (QuestionManager.first_unmastered _ _) as [[i|]|]; simpl in Hm';
      try congruence.
    change (q_mastered (read b w) = false) in Hm'. congruence.
  - exfalso. unfold QuestionManager.record_answer, mbind, M_bind,
      QuestionManager.get_current_question in Hm'.
    destruct (questions w) as [|a0 l0]; [simpl in Hm'; congruence|].
    destruct (py_index _ _) as [c|]; simpl in Hm'; [|congruence].
    rewrite read_update in Hm'. case_decide as H; [|congruence].
    destruct H as [-> _].
    pose proof (answer_question_fields is_correct (read b w)) as H.
    simpl in H. destruct is_correct.
    + destruct H as (_ & (_ & _ & H) & _). rewrite H, Hm in Hm'. done.
    + destruct H as (_ & (_ & _ & H) & _). congruence.
  - exfalso. unfold QuestionManager.reset_progress, modify in Hm'. simpl in Hm'.
    assert (q_mastered
              (read b (update_all (QuestionManager.reset_question e)
                         (questions w) w)) = true) as H; [|unfold update_all in H; congruence].
    apply (update_all_keeps (λ q, q_mastered q = true)); [|done].
    intros q Hq. unfold QuestionManager.reset_question.
    by destruct (e && q_mastered q).
  - unfold run_store_op, mbind, M_bind.
    rewrite release_run in *. simpl in *.
    rewrite read_update_all_idem in * by apply release_if_due_idem.
    exists t. case_decide as H; [|congruence]. destruct H as [Hin _].
    unfold release_if_due, QuestionManager.releasable in *.
    rewrite Hm in *. simpl in *. case_bool_decide; [|congruence].
    done.
Qed.

Lemma streak_le_1 (answers : list bool) :
  two_in_a_row answers = false → streak answers ≤ 1.
Proof.
  induction answers as [|b answers IH] using rev_ind; [done|].
  rewrite two_in_a_row_snoc, streak_snoc.
  intros [H1 H2]%orb_false_elim. destruct b; [|lia].
  simpl in H2. apply bool_decide_eq_false in H2. lia.
Qed.

Lemma question_of_row_defaults (columns : list string) (row : list Cell)
    (q : Question) :
  QuestionManager.question_of_row columns row = Ok q →
  q_answered q = 0 ∧ q_correct q = 0 ∧ q_wrong q = 0 ∧
  q_marked q = false ∧ q_mastered q = false.
Proof.
  unfold QuestionManager.question_of_row, mbind, result_bind, mret, result_ret.
  repeat (destruct (row_get columns row _); [|done]).
  intros [= <-]. done.
Qed.

(** C2.  Take a question whose [correct] is 0 and which is not mastered (as
    every question is when it is loaded) and let it receive any list of
    submissions.  It is mastered exactly if two adjacent submissions were
    both correct, and its [correct] is the number of correct submissions
    since the last wrong one.  One more submission turns [mastered] from
    false to true exactly when it brings [correct] to 2 on a question not
    yet mastered; a mastered question stays mastered whatever is submitted,
    and a correct submission only adds 1 to its [correct].  The same holds
    when the submissions go through [record_answer] on the current
    question.  Among the operations of the store, only the release takes
    [mastered] away, from a question of the current list whose [wrong] has
    reached the threshold, and it zeroes [correct]. *)
Theorem mastery_spec (q0 : Question) (answers : list bool) :
  q_correct q0 = 0 → q_mastered q0 = false →
  let q := submissions answers q0 in
  q_mastered q = two_in_a_row answers ∧
  q_correct q = streak answers ∧
  (∀ is_correct : bool,
     let q' := QuestionManager.answer_question is_correct q in
     (q_mastered q = false ∧ q_mastered q' = true
      ↔ q_mastered q = false ∧ q_correct q' = 2) ∧
     (q_mastered q = true →
      q_mastered q' = true ∧
      (is_correct = true → q_correct q' = q_correct q + 1))) ∧
  (∀ (w : World) (a : addr),
     QuestionManager.get_current_question w = (Ok (Some a), w) →
     live w a → read a w = q0 →
     ∃ w', record_answers answers w = (Ok tt, w') ∧ read a w' = q ∧
           ∀ b, b ≠ a → read b w' = read b w) ∧
  (∀ (o : store_op) (w : World) (b : addr),
     q_mastered (read b w) = true →
     q_mastered (read b (run_store_op o w).2) = false →
     ∃ t, o = OpReleaseMastered t ∧ b ∈ questions w ∧
          t ≤ q_wrong (read b w) ∧
          q_correct (read b (run_store_op o w).2) = 0).
Proof.
  intros Hc Hm q.
  destruct (submissions_mastery answers q0 Hc Hm) as [Hqm Hqc].
  split; [exact Hqm|]. split; [exact Hqc|]. split; [|split].
  - intros is_correct q'.
    pose proof (answer_question_fields is_correct q) as H. simpl in H.
    fold q' in H. fold q in Hqm, Hqc.
    pose proof (streak_nonneg answers) as Hs0.
    destruct is_correct.
    + destruct H as (_ & (H2 & _ & H4) & _). split.
      * split; intros [Hq Hq']; (split; [done|]).
        -- rewrite H4, Hq in Hq'. simpl in Hq'.
           apply bool_decide_eq_true in Hq'.
           rewrite Hqm in Hq. apply streak_le_1 in Hq. lia.
        -- rewrite H4, Hq. simpl. apply bool_decide_eq_true. lia.
      * intros Hq. rewrite H4, Hq. done.
    + destruct H as (_ & (_ & H3 & H4) & _). split.
      * split; intros [Hq Hq']; (split; [done|]); [congruence|lia].
      * intros Hq. split; [congruence|done].
  - intros w a Hcur Ha Hq0.
    exists (update a (submissions answers) w).
    split; [by apply record_answers_on_current|]. split.
    + rewrite read_update_eq by done. by rewrite Hq0.
    + intros b Hb. by apply read_update_ne.
  - apply store_op_clears_mastered.
Qed.

Lemma mastery_spec_witness :
  q_correct (read 0%nat Examples.started) = 0 ∧
  q_mastered (read 0%nat Examples.started) = false ∧
  q_mastered (submissions [true; false; true; true]
                (read 0%nat Examples.started)) = true ∧
  q_correct (submissions [true; false; true; true]
               (read 0%nat Examples.started)) = 2.
Proof.
  assert (Hc : q_correct (read 0%nat Examples.started) = 0)
    by (vm_compute; reflexivity).
  assert (Hm : q_mastered (read 0%nat Examples.started) = false)
    by (vm_compute; reflexivity).
  split; [exact Hc|]. split; [exact Hm|].
  destruct (mastery_spec (read 0%nat Examples.started)
              [true; false; true; true] Hc Hm) as (H1 & H2 & _).
  split; [rewrite H1|rewrite H2]; vm_compute; reflexivity.
Defined.

(** ** Navigation *)

Lemma py_index_nonneg {A} (l : list A) (i : Z) :
  0 ≤ i → py_index l i = l !! Z.to_nat i.
Proof. intros Hi. unfold py_index. by rewrite bool_decide_eq_true_2. Qed.

Lemma py_range_lookup (start stop : Z) (n : nat) (k : Z) :
  py_range start stop !! n = Some k ↔
  k = start + Z.of_nat n ∧ Z.of_nat n < stop - start.
Proof.
  unfold py_range. rewrite list_lookup_fmap, fmap_Some. split.
  - intros (m & [-> Hm]%lookup_seq & ->). split; [done|lia].
  - intros [-> Hn]. exists n. split; [|done]. apply lookup_seq. split; [done|lia].
Qed.

Lemma py_range_down_lookup (start : Z) (n : nat) (k : Z) :
  py_range_down start !! n = Some k ↔
  k = start - Z.of_nat n ∧ Z.of_nat n ≤ start.
Proof.
  unfold py_range_down. rewrite list_lookup_fmap, fmap_Some. split.
  - intros (m & [-> Hm]%lookup_seq & ->). split; [done|lia].
  - intros [-> Hn]. exists n. split; [|done]. apply lookup_seq. split; [done|lia].
Qed.

(** The scan over indices that all lie in the list: it returns the first
    index of the range whose question is not mastered. *)
Lemma first_unmastered_spec (w : World) (range : list Z) :
  Forall (λ i, 0 ≤ i < Z.of_nat (length (questions w))) range →
  match QuestionManager.first_unmastered w range with
  | Ok (Some i) =>
      ∃ n, range !! n = Some i ∧ unmastered_at w (Z.to_nat i) ∧
           ∀ m k, (m < n)%nat → range !! m = Some k →
                  ¬ unmastered_at w (Z.to_nat k)
  | Ok None => ∀ m k, range !! m = Some k → ¬ unmastered_at w (Z.to_nat k)
  | Raise _ => False
  end.
Proof.
  induction range as [|i range IH]; intros Hr; simpl.
  - intros m k Hk. by rewrite lookup_nil in Hk.
  - apply Forall_cons in Hr as [Hi Hr]. specialize (IH Hr).
    rewrite py_index_nonneg by lia.
    destruct (questions w !! Z.to_nat i) as [a|] eqn:Ha.
    2: { apply lookup_ge_None in Ha. lia. }
    destruct (q_mastered (read a w)) eqn:Hm; simpl.
    + assert (Hi' : ¬ unmastered_at w (Z.to_nat i)).
      { intros (a' & Ha' & Hm'). congruence. }
      destruct (QuestionManager.first_unmastered w range) as [[j|]|e];
        [| |done].
      * destruct IH as (n & Hn & Hj & Hbefore). exists (S n).
        split; [done|]. split; [done|].
        intros [|m] k Hlt Hk; simpl in Hk.
        -- by simplify_eq.
        -- eapply Hbefore; [|done]. lia.
      * intros [|m] k Hk; simpl in Hk; [by simplify_eq|by eapply IH].
    + exists 0%nat. split; [done|]. split; [by exists a|]. intros m k Hlt. lia.
Qed.

Lemma next_question_run (w : World) :
  0 ≤ current_question_index w →
  match QuestionManager.next_question w with
  | (Ok true, w') =>
      ∃ i : nat,
        w' = with_current_question_index (Z.of_nat i) w ∧
        current_question_index w < Z.of_nat i ∧ unmastered_at w i ∧
        ∀ k : nat, current_question_index w < Z.of_nat k → (k < i)%nat →
                   ¬ unmastered_at w k
  | (Ok false, w') =>
      w' = w ∧
      ∀ k : nat, current_question_index w < Z.of_nat k → ¬ unmastered_at w k
  | (Raise _, _) => False
  end.
Proof.
  intros Hidx. unfold QuestionManager.next_question.
  set (range := py_range (current_question_index w + 1)
                  (Z.of_nat (length (questions w)))).
  assert (Hr : Forall (λ i, 0 ≤ i < Z.of_nat (length (questions w))) range).
  { apply Forall_lookup. intros n k [-> Hn]%py_range_lookup. lia. }
  pose proof (first_unmastered_spec w range Hr) as H.
  destruct (QuestionManager.first_unmastered w range) as [[i|]|e]; [| |done].
  - destruct H as (n & [-> Hn]%py_range_lookup & Hi & Hbefore).
    exists (Z.to_nat (current_question_index w + 1 + Z.of_nat n)).
    rewrite Z2Nat.id by lia. split; [done|]. split; [lia|]. split; [done|].
    intros k Hk1 Hk2.
    specialize (Hbefore (Z.to_nat (Z.of_nat k - (current_question_index w + 1)))
                  (Z.of_nat k)).
    rewrite Nat2Z.id in Hbefore. apply Hbefore; [lia|].
    apply py_range_lookup. split; lia.
  - split; [done|]. intros k Hk Hu.
    destruct Hu as (a & Ha & Hm). pose proof (lookup_lt_Some _ _ _ Ha) as Hlen.
    apply (H (Z.to_nat (Z.of_nat k - (current_question_index w + 1)))
             (Z.of_nat k)).
    + apply py_range_lookup. split; lia.
    + rewrite Nat2Z.id. by exists a.
Qed.

Lemma prev_question_run (w : World) :
  current_question_index w ≤ Z.of_nat (length (questions w)) →
  match QuestionManager.prev_question w with
  | (Ok true, w') =>
      ∃ i : nat,
        w' = with_current_question_index (Z.of_nat i) w ∧
        Z.of_nat i < current_question_index w ∧ unmastered_at w i ∧
        ∀ k : nat, Z.of_nat k < current_question_index w → (i < k)%nat →
                   ¬ unmastered_at w k
  | (Ok false, w') =>
      w' = w ∧
      ∀ k : nat, Z.of_nat k < current_question_index w → ¬ unmastered_at w k
  | (Raise _, _) => False
  end.
Proof.
  intros Hidx. unfold QuestionManager.prev_question.
  set (range := py_range_down (current_question_index w - 1)).
  assert (Hr : Forall (λ i, 0 ≤ i < Z.of_nat (length (questions w))) range).
  { apply Forall_lookup. intros n k [-> Hn]%py_range_down_lookup. lia. }
  pose proof (first_unmastered_spec w range Hr) as H.
  destruct (QuestionManager.first_unmastered w range) as [[i|]|e]; [| |done].
  - destruct H as (n & [-> Hn]%py_range_down_lookup & Hi & Hbefore).
    exists (Z.to_nat (current_question_index w - 1 - Z.of_nat n)).
    rewrite Z2Nat.id by lia. split; [done|]. split; [lia|]. split; [done|].
    intros k Hk1 Hk2.
    specialize (Hbefore (Z.to_nat (current_question_index w - 1 - Z.of_nat k))
                  (Z.of_nat k)).
    rewrite Nat2Z.id in Hbefore. apply Hbefore; [lia|].
    apply py_range_down_lookup. split; lia.
  - split; [done|]. intros k Hk Hu.
    apply (H (Z.to_nat (current_question_index w - 1 - Z.of_nat k))
             (Z.of_nat k)).
    + apply py_range_down_lookup. split; lia.
    + by rewrite Nat2Z.id.
Qed.

Lemma valid_cursor_bounds (w : World) :
  valid_cursor w →
  0 ≤ current_question_index w ≤ Z.of_nat (length (questions w)).
Proof. intros [[-> ->]|H]; simpl; lia. Qed.

(** C3.  With the cursor on the current list, [next_question] looks at the
    positions after the cursor in ascending order, [prev_question] at those
    before it in descending order.  When one of them holds an unmastered
    question, the cursor moves to the nearest such position and the call
    returns true; when none does, the call returns false, the state is
    unchanged, and the same call made again returns false again and still
    changes nothing. *)
Theorem advance_spec (w : World) :
  valid_cursor w →
  match QuestionManager.next_question w with
  | (Ok true, w') =>
      ∃ i : nat,
        w' = with_current_question_index (Z.of_nat i) w ∧
        current_question_index w < Z.of_nat i ∧ unmastered_at w i ∧
        ∀ k : nat, current_question_index w < Z.of_nat k → (k < i)%nat →
                   ¬ unmastered_at w k
  | (Ok false, w') =>
      w' = w ∧
      (∀ k : nat, current_question_index w < Z.of_nat k → ¬ unmastered_at w k) ∧
      QuestionManager.next_question w' = (Ok false, w')
  | (Raise _, _) => False
  end ∧
  match QuestionManager.prev_question w with
  | (Ok true, w') =>
      ∃ i : nat,
        w' = with_current_question_index (Z.of_nat i) w ∧
        Z.of_nat i < current_question_index w ∧ unmastered_at w i ∧
        ∀ k : nat, Z.of_nat k < current_question_index w → (i < k)%nat →
                   ¬ unmastered_at w k
  | (Ok false, w') =>
      w' = w ∧
      (∀ k : nat, Z.of_nat k < current_question_index w → ¬ unmastered_at w k) ∧
      QuestionManager.prev_question w' = (Ok false, w')
  | (Raise _, _) => False
  end.
Proof.
  intros Hv. apply valid_cursor_bounds in Hv as [H0 Hlen]. split.
  - pose proof (next_question_run w H0) as H.
    destruct (QuestionManager.next_question w) as [[[]|e] w'] eqn:Hrun;
      [done| |done].
    destruct H as [-> H]. by rewrite Hrun.
  - pose proof (prev_question_run w Hlen) as H.
    destruct (QuestionManager.prev_question w) as [[[]|e] w'] eqn:Hrun;
      [done| |done].
    destruct H as [-> H]. by rewrite Hrun.
Qed.

Lemma advance_spec_witness :
  valid_cursor Examples.practised ∧
  match QuestionManager.next_question Examples.practised with
  | (Ok true, w') =>
      ∃ i : nat,
        w' = with_current_question_index (Z.of_nat i) Examples.practised ∧
        current_question_index Examples.practised < Z.of_nat i ∧
        unmastered_at Examples.practised i ∧
        ∀ k : nat, current_question_index Examples.practised < Z.of_nat k →
                   (k < i)%nat → ¬ unmastered_at Examples.practised k
  | (Ok false, w') =>
      w' = Examples.practised ∧
      (∀ k : nat, current_question_index Examples.practised < Z.of_nat k →
                  ¬ unmastered_at Examples.practised k) ∧
      QuestionManager.next_question w' = (Ok false, w')
  | (Raise _, _) => False
  end.
Proof.
  assert (Hv : valid_cursor Examples.practised) by (right; vm_compute; done).
  split; [exact Hv|]. exact (proj1 (advance_spec Examples.practised Hv)).
Defined.

(** The scenario of the specification: of three questions the second is
    mastered and the cursor is on the first; going on lands on the third,
    and going on again fails and leaves the cursor there. *)
Example advance_skips_mastered :
  let w1 := (QuestionManager.next_question Examples.practised).2 in
  q_mastered (read 1%nat Examples.practised) = true ∧
  current_question_index Examples.practised = 0 ∧
  (QuestionManager.next_question Examples.practised).1 = Ok true ∧
  current_question_index w1 = 2 ∧
  QuestionManager.next_question w1 = (Ok false, w1).
Proof. vm_compute. done. Qed.

(** ** Release and reset *)

Lemma releasable_due (threshold : Z) (q : Question) :
  QuestionManager.releasable threshold q = true ↔ due threshold q.
Proof.
  unfold QuestionManager.releasable, due.
  rewrite andb_true_iff, bool_decide_eq_true. done.
Qed.

(** C4.  [release_mastered_questions_by_wrong_count] changes the dicts and
    nothing else.  A question of the current list that is mastered with
    [wrong] at or above the threshold ends unmastered with [correct] 0, its
    [wrong] and every other key as before; every other dict, in the list or
    not, is as before; the count returned is the number of questions of the
    list that were mastered with [wrong] at or above the threshold. *)
Theorem release_spec (threshold : Z) (w : World) :
  distinct_live w (questions w) →
  ∃ (count : Z) (w' : World),
    QuestionManager.release_mastered_questions_by_wrong_count threshold w
      = (Ok count, w') ∧
    only_objs_changed w w' ∧
    (∀ a, a ∈ questions w → due threshold (read a w) →
       let q := read a w in
       let q' := read a w' in
       q_mastered q' = false ∧ q_correct q' = 0 ∧ q_wrong q' = q_wrong q ∧
       q_answered q' = q_answered q ∧ q_marked q' = q_marked q ∧
       same_content q q') ∧
    (∀ a, ¬ (a ∈ questions w ∧ due threshold (read a w)) →
       read a w' = read a w) ∧
    count =
      Z.of_nat (length (filter (λ a, due threshold (read a w)) (questions w))).
Proof.
  intros [Hnd Hlive]. eexists _, _. split; [apply release_run|].
  split; [apply update_all_only_objs|]. split; [|split].
  - intros a Ha Hdue. simpl.
    rewrite read_update_all_idem by apply release_if_due_idem.
    rewrite decide_True.
    2: { split; [done|]. by eapply Forall_forall in Hlive. }
    unfold release_if_due. apply releasable_due in Hdue. rewrite Hdue.
    unfold same_content. simpl. auto 15.
  - intros a Ha.
    rewrite read_update_all_idem by apply release_if_due_idem.
    case_decide as H; [|done]. destruct H as [Hin _].
    unfold release_if_due.
    destruct (QuestionManager.releasable threshold (read a w)) eqn:Hr; [|done].
    exfalso. apply Ha. split; [done|]. by apply releasable_due.
  - rewrite release_fold_count by done.
    rewrite (list_filter_iff _ (λ a, due threshold (read a w))); [lia|].
    intros a. apply releasable_due.
Qed.

Lemma reset_run (exclude_mastered : bool) (w : World) :
  QuestionManager.reset_progress exclude_mastered w =
    (Ok tt,
     update_all (QuestionManager.reset_question exclude_mastered)
       (questions w) w).
Proof. reflexivity. Qed.

(** C5.  [reset_progress] changes the dicts and nothing else.  For a
    question of the current list it puts [answered] to 0 and [marked] to
    false, unless mastered questions are excluded and the question is
    mastered, in which case the question is as before; on every question of
    the list [correct], [wrong], [mastered] and the content are as before;
    dicts outside the list are as before. *)
Theorem reset_progress_spec (exclude_mastered : bool) (w : World) :
  Forall (live w) (questions w) →
  ∃ w' : World,
    QuestionManager.reset_progress exclude_mastered w = (Ok tt, w') ∧
    only_objs_changed w w' ∧
    (∀ a, a ∈ questions w →
       let q := read a w in
       let q' := read a w' in
       (¬ kept_by_reset exclude_mastered q →
        q_answered q' = 0 ∧ q_marked q' = false) ∧
       (kept_by_reset exclude_mastered q → q' = q) ∧
       q_correct q' = q_correct q ∧ q_wrong q' = q_wrong q ∧
       q_mastered q' = q_mastered q ∧ same_content q q') ∧
    (∀ a, a ∉ questions w → read a w' = read a w).
Proof.
  intros Hlive. eexists. split; [apply reset_run|].
  split; [apply update_all_only_objs|]. split.
  - intros a Ha. simpl.
    rewrite read_update_all_idem by apply reset_question_idem.
    rewrite decide_True.
    2: { split; [done|]. by eapply Forall_forall in Hlive. }
    unfold QuestionManager.reset_question, kept_by_reset, same_content.
    destruct (exclude_mastered && q_mastered (read a w)) eqn:He.
    + apply andb_true_iff in He.
      repeat split; try done; intros Hn; by destruct Hn.
    + apply andb_false_iff in He.
      repeat split; try done; intros [He1 He2];
        destruct He as [He|He]; congruence.
  - intros a Ha.
    rewrite read_update_all_idem by apply reset_question_idem.
    rewrite decide_False; [done|]. by intros [? _].
Qed.

(** Closed decidable facts about the example states, by evaluation. *)
Ltac by_evaluation :=
  match goal with
  | |- ?P => apply (bool_decide_unpack P); vm_compute; exact I
  end.

Lemma release_spec_witness :
  distinct_live Examples.practised (questions Examples.practised) ∧
  ∃ (count : Z) (w' : World),
    QuestionManager.release_mastered_questions_by_wrong_count 1
      Examples.practised = (Ok count, w') ∧
    q_mastered (read 1%nat w') = false ∧ q_wrong (read 1%nat w') = 1 ∧
    read 0%nat w' = read 0%nat Examples.practised ∧ count = 1.
Proof.
  assert (Hd : distinct_live Examples.practised (questions Examples.practised))
    by (split; by_evaluation).
  split; [exact Hd|].
  destruct (release_spec 1 Examples.practised Hd)
    as (count & w' & Hrun & _ & Hin & Hout & Hcount).
  exists count, w'. split; [exact Hrun|].
  destruct (Hin 1%nat) as (Hm & _ & Hw & _); [by_evaluation|by_evaluation|].
  split; [exact Hm|]. split; [rewrite Hw; vm_compute; reflexivity|].
  split; [|rewrite Hcount; vm_compute; reflexivity].
  apply Hout. intros [_ [Hmast _]]. vm_compute in Hmast. discriminate.
Defined.

(** The scenario of the specification: a mastered question with one wrong
    answer on record is released by threshold 1 and not by threshold 2. *)
Example release_by_threshold :
  q_mastered (read 1%nat Examples.practised) = true ∧
  q_wrong (read 1%nat Examples.practised) = 1 ∧
  (QuestionManager.release_mastered_questions_by_wrong_count 1
     Examples.practised).1 = Ok 1 ∧
  q_mastered
    (read 1%nat
       (QuestionManager.release_mastered_questions_by_wrong_count 1
          Examples.practised).2) = false ∧
  QuestionManager.release_mastered_questions_by_wrong_count 2
    Examples.practised = (Ok 0, Examples.practised).
Proof. vm_compute. done. Qed.

Lemma reset_progress_spec_witness :
  Forall (live Examples.practised) (questions Examples.practised) ∧
  ∃ w' : World,
    QuestionManager.reset_progress true Examples.practised = (Ok tt, w') ∧
    q_answered (read 0%nat w') = 0 ∧
    q_correct (read 0%nat w') = 1 ∧
    read 1%nat w' = read 1%nat Examples.practised.
Proof.
  assert (Hl : Forall (live Examples.practised) (questions Examples.practised))
    by by_evaluation.
  split; [exact Hl|].
  destruct (reset_progress_spec true Examples.practised Hl)
    as (w' & Hrun & _ & Hin & _).
  exists w'. split; [exact Hrun|].
  destruct (Hin 0%nat) as (H0 & _ & Hc & _); [by_evaluation|].
  destruct (Hin 1%nat) as (_ & H1 & _); [by_evaluation|].
  split; [apply H0; intros [_ Hm]; vm_compute in Hm; discriminate|].
  split; [rewrite Hc; vm_compute; reflexivity|].
  apply H1. split; vm_compute; reflexivity.
Defined.

(** ** Switching and loading sets *)

Lemma dict_get_None {V} (d : list (string * V)) (k : string) :
  dict_get d k = None ↔ k ∉ dict_keys d.
Proof.
  unfold dict_keys. induction d as [|[k' v] d IH]; simpl.
  - split; [intros _; apply not_elem_of_nil|done].
  - rewrite not_elem_of_cons. destruct (decide (k' = k)) as [->|Hne].
    + split; [done|]. by intros [? _].
    + rewrite IH. split; [by intros ?; split|by intros [_ ?]].
Qed.

Lemma dict_get_set_eq {V} (d : list (string * V)) (k : string) (v : V) :
  dict_get (dict_set d k v) k = Some v.
Proof.
  induction d as [|[k' v'] d IH]; simpl.
  - by rewrite decide_True.
  - case_decide; simpl.
    + by rewrite decide_True.
    + by rewrite decide_False.
Qed.

Lemma dict_get_set_ne {V} (d : list (string * V)) (k k' : string) (v : V) :
  k' ≠ k → dict_get (dict_set d k v) k' = dict_get d k'.
Proof.
  intros Hk. induction d as [|[k0 v0] d IH]; simpl.
  - by rewrite decide_False.
  - case_decide; simpl.
    + subst. by rewrite !decide_False.
    + case_decide; [done|apply IH].
Qed.

(** C7, as the code has it.  For a name that is registered,
    [set_current_set] returns true, makes that name and that set's list the
    current ones and puts the cursor at 0, keeping everything else; for a
    name that is not registered it returns false and changes nothing. *)
Theorem set_current_set_spec (set_name : string) (w : World) :
  (∀ qs, dict_get (question_sets w) set_name = Some qs →
     ∃ w', QuestionManager.set_current_set set_name w = (Ok true, w') ∧
       current_set w' = set_name ∧ questions w' = qs ∧
       current_question_index w' = 0 ∧
       objs w' = objs w ∧ question_sets w' = question_sets w ∧
       current_file_path w' = current_file_path w ∧
       user_progress w' = user_progress w ∧ app_state w' = app_state w ∧
       initialized w' = initialized w ∧ showing_answer w' = showing_answer w ∧
       is_multiple w' = is_multiple w ∧ buttons w' = buttons w) ∧
  (set_name ∉ dict_keys (question_sets w) →
   QuestionManager.set_current_set set_name w = (Ok false, w)).
Proof.
  unfold QuestionManager.set_current_set. split.
  - intros qs ->. eexists. split; [done|]. simpl. auto 15.
  - intros Hk%dict_get_None. by rewrite Hk.
Qed.

Lemma set_current_set_spec_witness :
  dict_get (question_sets Examples.browsing) "开关题库" = Some [0; 1; 2]%nat ∧
  ∃ w', QuestionManager.set_current_set "开关题库" Examples.browsing
          = (Ok true, w') ∧
        questions w' = [0; 1; 2]%nat ∧ current_question_index w' = 0.
Proof.
  assert (Hk : dict_get (question_sets Examples.browsing) "开关题库"
               = Some [0; 1; 2]%nat) by (vm_compute; reflexivity).
  split; [exact Hk|].
  destruct (set_current_set_spec "开关题库" Examples.browsing) as [H _].
  destruct (H _ Hk) as (w' & Hrun & _ & Hq & Hi & _).
  exists w'. split; [exact Hrun|]. split; [exact Hq|exact Hi].
Defined.

(** C7 as stated fails: the cursor is on the second question of the current
    set; selecting that same set again returns true and puts the cursor
    back on the first question. *)
Lemma set_current_set_resets_cursor :
  current_set Examples.browsing = "开关题库" ∧
  current_question_index Examples.browsing = 1 ∧
  (QuestionManager.set_current_set "开关题库" Examples.browsing).1 = Ok true ∧
  current_question_index
    (QuestionManager.set_current_set "开关题库" Examples.browsing).2 = 0 ∧
  current_question_index
    (QuestionManager.set_current_set "开关题库" Examples.browsing).2
  ≠ current_question_index Examples.browsing.
Proof. vm_compute. repeat split; discriminate. Qed.

Lemma row_get_ok (columns : list string) (row : list Cell) (col : string) :
  col ∈ columns → length row = length columns →
  ∃ c, row_get columns row col = Ok c.
Proof.
  intros Hcol Hlen. unfold row_get.
  destruct (list_find (λ c, c = col) columns) as [[i c]|] eqn:Hfind.
  - apply list_find_Some in Hfind as (Hi & _ & _).
    apply lookup_lt_Some in Hi. rewrite <- Hlen in Hi.
    apply lookup_lt_is_Some_2 in Hi as [x Hx]. rewrite Hx. by exists x.
  - apply list_find_None in Hfind.
    eapply Forall_forall in Hfind; [|exact Hcol]. done.
Qed.

Lemma question_of_row_ok (columns : list string) (row : list Cell) :
  Forall (λ col, col ∈ columns) QuestionManager.required_columns →
  length row = length columns →
  ∃ q, QuestionManager.question_of_row columns row = Ok q.
Proof.
  intros Hreq Hlen. unfold QuestionManager.required_columns in Hreq.
  unfold QuestionManager.question_of_row, mbind, result_bind.
  repeat match goal with
  | H : Forall _ (_ :: _) |- _ => apply Forall_cons in H as [? H]
  end.
  repeat match goal with
  | |- context [row_get columns row ?col] =>
      let c := fresh "c" in let Hc := fresh "Hc" in
      destruct (row_get_ok columns row col) as [c Hc]; [done|done|];
      rewrite Hc
  end.
  by eexists.
Qed.

Lemma mapM_result_ok {A B} (f : A → result B) (l : list A) :
  Forall (λ x, ∃ y, f x = Ok y) l →
  ∃ ks, mapM f l = Ok ks ∧ Forall2 (λ x y, f x = Ok y) l ks.
Proof.
  induction 1 as [|x l [y Hy] _ (ks & Hks & IH)].
  - by exists [].
  - exists (y :: ks).
    change (mapM f (x :: l)) with (y ← f x; k ← mapM f l; mret (y :: k)).
    rewrite Hy, Hks. split; [done|]. by constructor.
Qed.

Lemma filter_not_nil {A} (Q : A → Prop) `{∀ x, Decision (Q x)} (l : list A) :
  filter (λ x, ¬ Q x) l = [] ↔ Forall Q l.
Proof.
  induction l as [|x l IH]; [done|].
  rewrite filter_cons, Forall_cons. destruct (decide (¬ Q x)) as [Hx|Hx].
  - split; [done|]. by intros [? _].
  - rewrite IH. apply dec_stable in Hx.
    split; [by intros ?; split|by intros [_ ?]].
Qed.

(** C8, as the code has it.  On a frame that lacks a required column
    [load_from_excel] reports failure, names the missing columns, and
    changes nothing; on any other frame it succeeds: it builds one new dict
    per row, with the progress keys at their defaults, registers the list of
    them under the name taken from the file, whatever was registered under
    that name before, keeps the other registered sets, and records that name
    as [current_set].  The current list and the cursor are not touched. *)
Theorem load_from_excel_spec (file_path : string) (df : DataFrame) (w : World) :
  df_wf df →
  let set_name := split_first "." (basename file_path) in
  let missing :=
    filter (λ col, col ∉ df_columns df) QuestionManager.required_columns in
  (missing ≠ [] →
   QuestionManager.load_from_excel file_path df w =
     (Ok (false, QuestionManager.LoadFailed (ValueError missing)), w)) ∧
  (missing = [] →
   ∃ (qs : list Question) (w' : World),
     QuestionManager.load_from_excel file_path df w =
       (Ok (true, QuestionManager.Loaded (length (df_rows df))), w') ∧
     Forall2 (λ row q, QuestionManager.question_of_row (df_columns df) row = Ok q)
       (df_rows df) qs ∧
     Forall (λ q, q_answered q = 0 ∧ q_correct q = 0 ∧ q_wrong q = 0 ∧
                  q_marked q = false ∧ q_mastered q = false) qs ∧
     objs w' = objs w ++ qs ∧
     dict_get (question_sets w') set_name
       = Some (seq (length (objs w)) (length qs)) ∧
     (∀ other, other ≠ set_name →
        dict_get (question_sets w') other = dict_get (question_sets w) other) ∧
     current_set w' = set_name ∧
     current_file_path w' = Some file_path ∧
     questions w' = questions w ∧
     current_question_index w' = current_question_index w ∧
     user_progress w' = user_progress w ∧ app_state w' = app_state w).
Proof.
  intros Hwf set_name missing. rewrite load_from_excel_run.
  assert (Hm : missing = [] ↔
               Forall (λ col, col ∈ df_columns df)
                 QuestionManager.required_columns)
    by apply filter_not_nil.
  split.
  - intros Hmiss. rewrite bool_decide_eq_false_2; [done|]. by rewrite <- Hm.
  - intros Hall%Hm. rewrite bool_decide_eq_true_2 by done.
    destruct (mapM_result_ok (QuestionManager.question_of_row (df_columns df))
                (df_rows df)) as (qs & Hqs & Hrows).
    { eapply Forall_impl; [exact Hwf|]. intros row Hrow.
      by apply question_of_row_ok. }
    rewrite Hqs. exists qs, (loaded_world file_path qs w).
    rewrite (Forall2_length _ _ _ Hrows).
    split; [done|]. split; [done|]. split.
    { clear Hqs Hwf.
      induction Hrows as [|row q rows qs' Hq _ IH]; constructor; [|done].
      by eapply question_of_row_defaults. }
    split; [done|]. split; [apply dict_get_set_eq|].
    split; [intros other Ho; by apply dict_get_set_ne|]. done.
Qed.

Lemma load_from_excel_spec_witness :
  df_wf Examples.bank1 ∧
  filter (λ col, col ∉ df_columns Examples.bank1)
    QuestionManager.required_columns = [] ∧
  ∃ w', QuestionManager.load_from_excel Examples.other_path Examples.bank1
          Examples.browsing
          = (Ok (true, QuestionManager.Loaded 1), w') ∧
        current_set w' = "新题库" ∧
        questions w' = questions Examples.browsing ∧
        current_question_index w' = current_question_index Examples.browsing.
Proof.
  assert (Hwf : df_wf Examples.bank1) by by_evaluation.
  assert (Hm : filter (λ col, col ∉ df_columns Examples.bank1)
                 QuestionManager.required_columns = [])
    by (vm_compute; reflexivity).
  split; [exact Hwf|]. split; [exact Hm|].
  destruct (load_from_excel_spec Examples.other_path Examples.bank1
              Examples.browsing Hwf) as [_ H].
  destruct (H Hm) as (qs & w' & Hrun & _ & _ & _ & _ & _ & Hc & _ & Hq & Hi & _).
  exists w'. split; [exact Hrun|]. split; [|split; [exact Hq|exact Hi]].
  rewrite Hc. vm_compute. reflexivity.
Defined.

(** C8 as stated fails: with the cursor on the second question, loading
    another file succeeds, and the cursor is still on the second question
    of the list that was current before. *)
Lemma load_from_excel_keeps_cursor :
  let r := QuestionManager.load_from_excel Examples.other_path Examples.bank1
             Examples.browsing in
  current_question_index Examples.browsing = 1 ∧
  r.1 = Ok (true, QuestionManager.Loaded 1) ∧
  current_set r.2 = "新题库" ∧
  current_question_index r.2 = 1 ∧
  current_question_index r.2 ≠ 0 ∧
  questions r.2 = questions Examples.browsing.
Proof. vm_compute. repeat split; discriminate. Qed.

(** ** The cursor *)

Lemma only_objs_changed_cursor (w w' : World) :
  only_objs_changed w w' → valid_cursor w → valid_cursor w'.
Proof. unfold only_objs_changed. intros ->. done. Qed.

(** The operations of the question manager keep the cursor on the current
    list. *)
Lemma store_ops_keep_cursor_valid (o : store_op) (w : World) :
  valid_cursor w → valid_cursor (run_store_op o w).2.
Proof.
  intros Hv. destruct o as [file_path df|name| | |is_correct|e|t];
    unfold run_store_op, mbind, M_bind.
  - rewrite load_from_excel_run. case_bool_decide; [|done].
    destruct (mapM _ _); done.
  - unfold QuestionManager.set_current_set.
    destruct (dict_get _ _) as [[|a qs]|]; simpl; [by left| |done].
    right. simpl. lia.
  - pose proof (next_question_run w (proj1 (valid_cursor_bounds w Hv))) as H.
    destruct (QuestionManager.next_question w) as [[[]|err] w']; simpl;
      [|by destruct H as [-> _]|done].
    destruct H as (i & -> & Hi & (a & Ha%lookup_lt_Some & _) & _).
    right. simpl. lia.
  - pose proof (prev_question_run w (proj2 (valid_cursor_bounds w Hv))) as H.
    destruct (QuestionManager.prev_question w) as [[[]|err] w']; simpl;
      [|by destruct H as [-> _]|done].
    destruct H as (i & -> & Hi & (a & Ha%lookup_lt_Some & _) & _).
    right. simpl. lia.
  - unfold QuestionManager.record_answer, mbind, M_bind,
      QuestionManager.get_current_question.
    destruct (questions w) as [|a0 l0] eqn:Hq; [done|].
    destruct (py_index _ _) as [c|]; simpl; [|done].
    eapply only_objs_changed_cursor; [apply update_only_objs|done].
  - rewrite reset_run. simpl.
    eapply only_objs_changed_cursor; [apply update_all_only_objs|done].
  - rewrite release_run. simpl.
    eapply only_objs_changed_cursor; [apply update_all_only_objs|done].
Qed.

Lemma distinct_live_mono (w w' : World) (l : list addr) :
  (length (objs w) ≤ length (objs w'))%nat →
  distinct_live w l → distinct_live w' l.
Proof.
  intros Hlen [Hnd Hlive]. split; [done|].
  eapply Forall_impl; [exact Hlive|]. unfold live. intros a Ha. lia.
Qed.

Lemma only_objs_changed_lists (w w' : World) :
  only_objs_changed w w' → length (objs w') = length (objs w) →
  lists_distinct_live w → lists_distinct_live w'.
Proof.
  unfold only_objs_changed. intros Hw Hlen [Hq Hsets].
  assert (Hle : (length (objs w) ≤ length (objs w'))%nat) by lia.
  rewrite Hw. split; simpl.
  - rewrite <- Hw. by eapply distinct_live_mono.
  - intros name l Hl. rewrite <- Hw. eapply distinct_live_mono; [done|].
    by eapply Hsets.
Qed.

Lemma length_objs_update_all (f : Question → Question) (l : list addr)
    (w : World) :
  length (objs (update_all f l w)) = length (objs w).
Proof.
  revert w. induction l as [|a l IH]; intros w; [done|].
  by rewrite update_all_cons, IH, length_objs_update.
Qed.

(** The lists of a state that has just been created are empty, and the
    operations of the question manager keep every list a list of distinct
    existing dicts. *)
Lemma blank_lists_distinct_live : lists_distinct_live Examples.blank.
Proof.
  split; [split; constructor|]. intros name l Hl. discriminate Hl.
Qed.

Lemma store_ops_keep_lists_distinct_live (o : store_op) (w : World) :
  lists_distinct_live w → lists_distinct_live (run_store_op o w).2.
Proof.
  intros Hw. destruct o as [file_path df|name| | |is_correct|e|t];
    unfold run_store_op, mbind, M_bind.
  - rewrite load_from_excel_run. case_bool_decide; [|done].
    destruct (mapM _ _) as [qs|err]; [|done]. simpl.
    destruct Hw as [Hq Hsets].
    assert (Hle : (length (objs w)
                   ≤ length (objs (loaded_world file_path qs w)))%nat).
    { simpl. rewrite length_app. lia. }
    split; [by eapply distinct_live_mono|].
    intros name l. simpl.
    destruct (decide (name = split_first "." (basename file_path))) as [->|Hn].
    + rewrite dict_get_set_eq. intros [= <-]. split; [apply NoDup_seq|].
      apply Forall_forall. intros a [_ Ha]%elem_of_seq.
      unfold live. simpl. rewrite length_app. lia.
    + rewrite dict_get_set_ne by done. intros Hl.
      eapply distinct_live_mono; [done|]. by eapply Hsets.
  - unfold QuestionManager.set_current_set.
    destruct (dict_get _ _) as [qs|] eqn:Hqs; [|done]. simpl.
    destruct Hw as [Hq Hsets]. split; [by apply (Hsets name)|done].
  - unfold QuestionManager.next_question.
    by destruct (QuestionManager.first_unmastered _ _) as [[i|]|].
  - unfold QuestionManager.prev_question.
    by destruct (QuestionManager.first_unmastered _ _) as [[i|]|].
  - unfold QuestionManager.record_answer, mbind, M_bind,
      QuestionManager.get_current_question.
    destruct (questions w) as [|a0 l0] eqn:Hq; [done|].
    destruct (py_index _ _) as [c|]; simpl; [|done].
    eapply only_objs_changed_lists; [apply update_only_objs| |done].
    apply length_objs_update.
  - rewrite reset_run. simpl.
    eapply only_objs_changed_lists; [apply update_all_only_objs| |done].
    apply length_objs_update_all.
  - rewrite release_run. simpl.
    eapply only_objs_changed_lists; [apply update_all_only_objs| |done].
    apply length_objs_update_all.
Qed.

(** So every state the operations of the question manager reach from a new
    one has its cursor on the current list and holds lists of distinct
    existing dicts. *)
Lemma store_reachable_invariants (ops : list store_op) :
  valid_cursor (run_store_ops ops Examples.blank) ∧
  lists_distinct_live (run_store_ops ops Examples.blank).
Proof.
  unfold run_store_ops.
  induction ops as [|o ops [IH1 IH2]] using rev_ind.
  - split; [by left|apply blank_lists_distinct_live].
  - rewrite foldl_snoc. split.
    + by apply store_ops_keep_cursor_valid.
    + by apply store_ops_keep_lists_distinct_live.
Qed.

(** C6 fails on the code.  A session on a bank of three questions is closed
    on the third one, which saves position 2 for the set.  The bank file is
    then cut down to one question.  The next start restores position 2 onto
    the one-question list without a check: the cursor is out of range and
    [get_current_question] raises [IndexError] on a list that is not empty.
    The same happens within one session when the shorter file is loaded
    under the name of the current set and the set is selected again. *)
Theorem persisted_cursor_out_of_range :
  valid_cursor Examples.started ∧
  valid_cursor Examples.closed ∧
  current_question_index Examples.closed = 2 ∧
  app_state Examples.closed !! "last_position_开关题库" = Some "2" ∧
  questions Examples.restarted = [3%nat] ∧
  current_question_index Examples.restarted = 2 ∧
  ¬ valid_cursor Examples.restarted ∧
  QuestionManager.get_current_question Examples.restarted
    = (Raise IndexError, Examples.restarted) ∧
  questions Examples.reselected = [3%nat] ∧
  current_question_index Examples.reselected = 2 ∧
  ¬ valid_cursor Examples.reselected ∧
  QuestionManager.get_current_question Examples.reselected
    = (Raise IndexError, Examples.reselected).
Proof.
  repeat split; try by_evaluation; vm_compute; reflexivity.
Qed.

(** ** Judging a multiple-choice submission *)

Lemma click_multiple (k : nat) (w : World) :
  is_multiple w = true →
  AnswerWidget.click k w =
    (Ok tt, with_buttons (alter AnswerWidget.toggle k (buttons w)) w).
Proof. intros Hm. unfold AnswerWidget.click, modify. by rewrite Hm. Qed.

Lemma clicks_run (ks : list nat) (w : World) :
  is_multiple w = true →
  clicks ks w = (Ok tt, with_buttons (ticked ks (buttons w)) w).
Proof.
  revert w. induction ks as [|k ks IH]; intros w Hm.
  - by destruct w.
  - change (clicks (k :: ks)) with (AnswerWidget.click k;; clicks ks).
    unfold mbind, M_bind. rewrite click_multiple by done.
    rewrite IH by done. by destruct w.
Qed.

Lemma ticked_perm (ks1 ks2 : list nat) (bs : list Button) :
  ks1 ≡ₚ ks2 → ticked ks1 bs = ticked ks2 bs.
Proof.
  intros Hp. revert bs.
  induction Hp as [|k ks1 ks2 _ IH|k j ks|ks1 ks2 ks3 _ IH1 _ IH2]; intros bs.
  - done.
  - apply IH.
  - unfold ticked. simpl. f_equal.
    destruct (decide (k = j)) as [->|Hkj]; [done|].
    by apply list_alter_alter_ne.
  - by rewrite IH1.
Qed.

Lemma ticked_texts (ks : list nat) (bs : list Button) :
  btn_text <$> ticked ks bs = btn_text <$> bs.
Proof.
  revert bs. induction ks as [|k ks IH]; intros bs; [done|].
  unfold ticked in *. simpl. rewrite IH.
  apply list_eq. intros i. rewrite !list_lookup_fmap.
  destruct (decide (k = i)) as [->|Hki].
  - rewrite list_lookup_alter_eq. by destruct (bs !! i).
  - by rewrite list_lookup_alter_ne.
Qed.

Lemma selected_letters_ok (bs : list Button) :
  Forall (λ t, t ≠ EmptyString) (btn_text <$> bs) →
  ∃ s, AnswerWidget.selected_letters bs = Ok s ∧
       list_ascii_of_string s = checked_letters bs.
Proof.
  unfold checked_letters.
  induction bs as [|b bs IH]; intros Hne; [by exists EmptyString|].
  apply Forall_cons in Hne as [Hb Hne]. destruct (IH Hne) as (s & Hs & Hl).
  simpl. rewrite filter_cons. destruct (btn_checked b) eqn:Hc.
  - rewrite decide_True by done.
    destruct (btn_text b) as [|c t] eqn:Ht; [done|].
    rewrite Hs. exists (String c s). split; [done|].
    simpl. rewrite Hl, Ht. done.
  - rewrite decide_False by done. by exists s.
Qed.

Lemma filter_sublist {A} (P : A → Prop) `{∀ x, Decision (P x)} (l : list A) :
  filter P l `sublist_of` l.
Proof.
  induction l as [|x l IH]; [constructor|].
  rewrite filter_cons. case_decide; by constructor.
Qed.

Lemma fmap_sublist {A B} (f : A → B) (l1 l2 : list A) :
  l1 `sublist_of` l2 → f <$> l1 `sublist_of` f <$> l2.
Proof. induction 1; simpl; by constructor. Qed.

(** Two selections out of the same duplicate-free list that hold the same
    elements are the same list. *)
Lemma sublist_unique {A} (l l1 l2 : list A) :
  NoDup l → l1 `sublist_of` l → l2 `sublist_of` l →
  (∀ x, x ∈ l1 ↔ x ∈ l2) → l1 = l2.
Proof.
  intros Hnd. revert l1 l2.
  induction Hnd as [|x l Hx Hnd IH]; intros l1 l2 H1 H2 Hsame.
  - apply sublist_nil_r in H1, H2. by subst.
  - apply sublist_cons_r in H1 as [H1|(l1' & -> & H1)],
                             H2 as [H2|(l2' & -> & H2)].
    + by apply IH.
    + exfalso. apply Hx. eapply elem_of_sublist; [|exact H1].
      apply Hsame. left.
    + exfalso. apply Hx. eapply elem_of_sublist; [|exact H2].
      apply Hsame. left.
    + f_equal. apply IH; [done|done|]. intros y.
      specialize (Hsame y). rewrite !elem_of_cons in Hsame.
      split; intros Hy.
      * destruct (proj1 Hsame (or_intror Hy)) as [->|?]; [|done].
        exfalso. apply Hx. by eapply elem_of_sublist.
      * destruct (proj2 Hsame (or_intror Hy)) as [->|?]; [|done].
        exfalso. apply Hx. by eapply elem_of_sublist.
Qed.

Lemma add_option_buttons_run (options : list (string * Cell)) (w w' : World) :
  Forall (λ o, o.1 ≠ EmptyString) options →
  AnswerWidget.add_option_buttons options w = (Ok tt, w') →
  ∃ bs, w' = with_buttons (buttons w ++ bs) w ∧
        Forall (λ t, t ≠ EmptyString) (btn_text <$> bs) ∧
        Forall (λ b, btn_checked b = false) bs ∧
        (λ b, head_letter (btn_text b)) <$> bs
          `sublist_of` (λ o, head_letter o.1) <$> options.
Proof.
  revert w. induction options as [|[key text] options IH]; intros w Hk Hrun.
  - exists []. simpl in Hrun. unfold mret, M_ret in Hrun.
    injection Hrun as <-.
    rewrite app_nil_r. split; [by destruct w|]. repeat split; constructor.
  - apply Forall_cons in Hk as [Hkey Hk]. simpl in Hkey, Hrun.
    assert (Hskip :
      AnswerWidget.add_option_buttons options w = (Ok tt, w') →
      ∃ bs, w' = with_buttons (buttons w ++ bs) w ∧
            Forall (λ t, t ≠ EmptyString) (btn_text <$> bs) ∧
            Forall (λ b, btn_checked b = false) bs ∧
            (λ b, head_letter (btn_text b)) <$> bs
              `sublist_of` (λ o, head_letter o.1) <$> ((key, text) :: options)).
    { intros Hrest. destruct (IH w Hk Hrest) as (bs & -> & H1 & H2 & H3).
      exists bs. repeat split; try done. by apply sublist_cons. }
    destruct text as [t|n|]; [|done|by apply Hskip].
    destruct (AnswerWidget.is_blank t); [by apply Hskip|].
    unfold mbind, M_bind, modify in Hrun.
    destruct (IH _ Hk Hrun) as (bs & -> & H1 & H2 & H3).
    eexists (_ :: bs). split.
    { simpl. rewrite <- app_assoc. by destruct w. }
    split; [|split].
    + rewrite fmap_cons. constructor; [|done]. simpl.
      destruct key; [done|]. done.
    + by constructor.
    + rewrite !fmap_cons. simpl.
      destruct key as [|c key]; [done|]. simpl. by apply sublist_skip.
Qed.

Lemma set_question_run (q : Question) (w0 w : World) :
  Forall (λ o, o.1 ≠ EmptyString) (q_options q) →
  AnswerWidget.set_question q w0 = (Ok tt, w) →
  is_multiple w = bool_decide (q_type q = CStr "多选题") ∧
  Forall (λ t, t ≠ EmptyString) (btn_text <$> buttons w) ∧
  (λ b, head_letter (btn_text b)) <$> buttons w
    `sublist_of` (λ o, head_letter o.1) <$> q_options q.
Proof.
  intros Hk Hrun. unfold AnswerWidget.set_question, mbind, M_bind, modify in Hrun.
  destruct (add_option_buttons_run _ _ _ Hk Hrun) as (bs & -> & H1 & H2 & H3).
  done.
Qed.

(** C10, as the code has it.  For a multiple-choice question on display,
    the check boxes end in the same state whatever order the same clicks
    come in, and the submitted string is made of the letters of the checked
    boxes in the order A, B, C, D.  It is judged correct exactly when it is
    equal, as a string, to the stored answer.  So a submission that selects
    exactly the letters of the stored answer is judged correct when the
    stored answer lists them in ascending order. *)
Theorem multiple_choice_judging (q : Question) (w0 w : World)
    (ks1 ks2 : list nat) :
  q_type q = CStr "多选题" →
  (q_options q).*1 = ["A"; "B"; "C"; "D"]%string →
  AnswerWidget.set_question q w0 = (Ok tt, w) →
  ks1 ≡ₚ ks2 →
  let w1 := (clicks ks1 w).2 in
  let w2 := (clicks ks2 w).2 in
  w1 = w2 ∧
  ∃ s : string,
    AnswerWidget.get_selected_answers w1 = (Ok s, w1) ∧
    list_ascii_of_string s = checked_letters (buttons w1) ∧
    ascending s ∧
    (MainWindow.is_correct s q = true ↔ q_answer q = CStr s) ∧
    (∀ correct : string,
       q_answer q = CStr correct → ascending correct →
       (∀ c, c ∈ list_ascii_of_string correct ↔ c ∈ list_ascii_of_string s) →
       MainWindow.is_correct s q = true).
Proof.
  intros Htype Hkeys Hset Hperm w1 w2.
  assert (Hk : Forall (λ o, o.1 ≠ EmptyString) (q_options q)).
  { apply (Forall_fmap fst (λ k, k ≠ EmptyString)). rewrite Hkeys.
    repeat constructor; done. }
  destruct (set_question_run q w0 w Hk Hset) as (Hm & Htexts & Hsub).
  rewrite Htype, bool_decide_eq_true_2 in Hm by done.
  assert (Hletters : (λ o, head_letter o.1) <$> q_options q
                     = ["A"; "B"; "C"; "D"]%char).
  { change ((head_letter ∘ fst) <$> q_options q = ["A"; "B"; "C"; "D"]%char).
    rewrite list_fmap_compose, Hkeys. done. }
  rewrite Hletters in Hsub.
  subst w1 w2. rewrite !clicks_run by done. simpl.
  rewrite (ticked_perm ks1 ks2) by done. split; [done|].
  destruct (selected_letters_ok (ticked ks2 (buttons w))) as (s & Hs & Hl).
  { by rewrite ticked_texts. }
  assert (Hasc : ascending s).
  { unfold ascending. rewrite Hl. unfold checked_letters.
    etrans; [apply fmap_sublist, filter_sublist|].
    change ((head_letter ∘ btn_text) <$> ticked ks2 (buttons w)
            `sublist_of` ["A"; "B"; "C"; "D"]%char).
    rewrite list_fmap_compose, ticked_texts, <- list_fmap_compose.
    exact Hsub. }
  assert (Hiff : MainWindow.is_correct s q = true ↔ q_answer q = CStr s).
  { unfold MainWindow.is_correct. rewrite bool_decide_eq_true. naive_solver. }
  exists s. unfold AnswerWidget.get_selected_answers. simpl. rewrite Hs.
  repeat split; try done; try apply Hiff.
  intros correct Hans Hc Hsame. apply Hiff. rewrite Hans. f_equal.
  rewrite <- (string_of_list_ascii_of_string correct),
    <- (string_of_list_ascii_of_string s). f_equal.
  eapply (sublist_unique ["A"; "B"; "C"; "D"]%char); try done.
  by_evaluation.
Qed.

Lemma multiple_choice_judging_witness :
  let q := read 0%nat Examples.started in
  q_type q = CStr "多选题" ∧
  (q_options q).*1 = ["A"; "B"; "C"; "D"]%string ∧
  AnswerWidget.set_question q Examples.started = (Ok tt, Examples.started) ∧
  [1; 0]%nat ≡ₚ [0; 1]%nat ∧
  (clicks [1; 0]%nat Examples.started).2 = (clicks [0; 1]%nat Examples.started).2 ∧
  ∃ s : string,
    AnswerWidget.get_selected_answers (clicks [1; 0]%nat Examples.started).2
      = (Ok s, (clicks [1; 0]%nat Examples.started).2) ∧
    MainWindow.is_correct s q = true.
Proof.
  intros q.
  assert (H1 : q_type q = CStr "多选题") by (vm_compute; reflexivity).
  assert (H2 : (q_options q).*1 = ["A"; "B"; "C"; "D"]%string)
    by (vm_compute; reflexivity).
  assert (H3 : AnswerWidget.set_question q Examples.started
               = (Ok tt, Examples.started)) by (vm_compute; reflexivity).
  assert (H4 : [1; 0]%nat ≡ₚ [0; 1]%nat) by apply perm_swap.
  split; [exact H1|]. split; [exact H2|]. split; [exact H3|].
  split; [exact H4|].
  destruct (multiple_choice_judging q Examples.started Examples.started
              [1; 0]%nat [0; 1]%nat H1 H2 H3 H4)
    as (Hsame & s & Hs & Hl & Hasc & _ & Hok).
  split; [exact Hsame|]. exists s. split; [exact Hs|].
  apply (Hok "AB"%string);
    [vm_compute; reflexivity
    |unfold ascending; simpl; apply sublist_skip, sublist_skip, sublist_nil_l|].
  intros c. rewrite Hl.
  replace (checked_letters (buttons (clicks [1; 0]%nat Examples.started).2))
    with (list_ascii_of_string "AB") by (vm_compute; reflexivity).
  reflexivity.
Defined.

(** C10 as stated fails.  The stored answer of the second question is BA,
    which is how the extractor keeps an answer written in that order.  The
    user ticks B and A, exactly the correct letters; the submitted string is
    AB, it is judged wrong, and [submit_answer] records a wrong answer. *)
Lemma unsorted_answer_is_judged_wrong :
  let w := Examples.both_ticked in
  let q := read 1%nat w in
  Transformer.answer_letters "BA" = "BA"%string ∧
  QuestionManager.get_current_question w = (Ok (Some 1%nat), w) ∧
  q_type q = CStr "多选题" ∧
  q_answer q = CStr "BA" ∧
  checked_letters (buttons w) = ["A"; "B"]%char ∧
  AnswerWidget.get_selected_answers w = (Ok "AB"%string, w) ∧
  MainWindow.is_correct "AB" q = false ∧
  q_wrong q = 0 ∧
  q_wrong (read 1%nat (MainWindow.submit_answer w).2) = 1 ∧
  q_correct (read 1%nat (MainWindow.submit_answer w).2) = 0.
Proof. vm_compute. repeat split; reflexivity. Qed.

(** ** Saving and restoring progress *)


Lemma position_key_not_last_set (set_name : string) :
  DatabaseManager.position_key set_name ≠ "last_set"%string.
Proof. unfold DatabaseManager.position_key. simpl. discriminate. Qed.




(** The loop that applies fetched rows, for any identity index. *)
Section ApplyRows.

Variable index : Cell → option addr.








End ApplyRows.









(** * Further properties of the code *)

(** ** What the store operations do to one dict *)

Lemma store_op_on_dict (o : store_op) (w : World) (b : addr) :
  live w b →
  let q := read b w in
  let q' := read b (run_store_op o w).2 in
  q' = q ∨
  (∃ c, q' = QuestionManager.answer_question c q) ∨
  (∃ e, q' = QuestionManager.reset_question e q) ∨
  (∃ t, q' = release_if_due t q).
Proof.
  intros Hb. simpl.
  destruct o as [file_path df|name| | |is_correct|e|t];
    unfold run_store_op, mbind, M_bind.
  - left. rewrite load_from_excel_run. case_bool_decide; [|done].
    destruct (mapM _ _) as [qs|err]; [|done]. by apply read_loaded_world.
  - left. unfold QuestionManager.set_current_set.
    by destruct (dict_get _ _).
  - left. unfold QuestionManager.next_question.
    by destruct (QuestionManager.first_unmastered _ _) as [[i|]|].
  - left. unfold QuestionManager.prev_question.
    by destruct (QuestionManager.first_unmastered _ _) as [[i|]|].
  - unfold QuestionManager.record_answer, mbind, M_bind,
      QuestionManager.get_current_question.
    destruct (questions w) as [|a0 l0]; [by left|].
    destruct (py_index _ _) as [c|]; simpl; [|by left].
    rewrite read_update. case_decide as H; [|by left].
    destruct H as [-> _]. right. left. by exists is_correct.
  - rewrite reset_run. simpl.
    rewrite read_update_all_idem by apply reset_question_idem.
    case_decide; [|by left]. right. right. left. by exists e.
  - rewrite release_run. simpl.
    rewrite read_update_all_idem by apply release_if_due_idem.
    case_decide; [|by left]. right. right. right. by exists t.
Qed.

Lemma reset_question_fields (e : bool) (q : Question) :
  let q' := QuestionManager.reset_question e q in
  same_content q q' ∧ q_correct q' = q_correct q ∧ q_wrong q' = q_wrong q ∧
  q_mastered q' = q_mastered q ∧
  (q_answered q' = q_answered q ∨ q_answered q' = 0).
Proof.
  unfold QuestionManager.reset_question, same_content. simpl.
  destruct (e && q_mastered q); simpl; auto 15.
Qed.

Lemma release_if_due_fields (t : Z) (q : Question) :
  let q' := release_if_due t q in
  same_content q q' ∧ q_answered q' = q_answered q ∧ q_wrong q' = q_wrong q ∧
  q_marked q' = q_marked q ∧
  (q' = q ∨ (q_mastered q' = false ∧ q_correct q' = 0)).
Proof.
  unfold release_if_due, same_content. simpl.
  destruct (QuestionManager.releasable t q); simpl; auto 15.
Qed.

(** X1.  no operation of the question manager rewrites the content of a
    question that exists, and none lowers its count of wrong answers. *)
Theorem store_ops_keep_content_and_wrong (o : store_op) (w : World) (b : addr) :
  live w b →
  same_content (read b w) (read b (run_store_op o w).2) ∧
  q_wrong (read b w) ≤ q_wrong (read b (run_store_op o w).2).
Proof.
  intros Hb.
  destruct (store_op_on_dict o w b Hb) as [H|[[c H]|[[e H]|[t H]]]];
    simpl in H; rewrite H.
  - split; [unfold same_content; auto 10|lia].
  - pose proof (answer_question_fields c (read b w)) as F. simpl in F.
    destruct c.
    + destruct F as (_ & (_ & Hw & _) & _ & Hc). split; [done|lia].
    + destruct F as (_ & (Hw & _ & _) & _ & Hc). split; [done|lia].
  - destruct (reset_question_fields e (read b w)) as (Hc & _ & Hw & _).
    split; [done|lia].
  - destruct (release_if_due_fields t (read b w)) as (Hc & _ & Hw & _).
    split; [done|lia].
Qed.

Lemma store_ops_keep_content_and_wrong_witness :
  live Examples.practised 1%nat ∧
  same_content (read 1%nat Examples.practised)
    (read 1%nat (run_store_op (OpReleaseMastered 1) Examples.practised).2) ∧
  q_wrong (read 1%nat Examples.practised)
  ≤ q_wrong (read 1%nat (run_store_op (OpReleaseMastered 1) Examples.practised).2).
Proof.
  assert (Hl : live Examples.practised 1%nat) by by_evaluation.
  split; [exact Hl|].
  exact (store_ops_keep_content_and_wrong (OpReleaseMastered 1)
           Examples.practised 1%nat Hl).
Defined.

Lemma mapM_result_inv {A B} (f : A → result B) (l : list A) (ks : list B) :
  mapM f l = Ok ks → Forall2 (λ x y, f x = Ok y) l ks.
Proof.
  revert ks. induction l as [|x l IH]; intros ks.
  - intros [= <-]. constructor.
  - change (mapM f (x :: l)) with (y ← f x; k ← mapM f l; mret (y :: k)).
    unfold mbind, result_bind, mret, result_ret.
    destruct (f x) as [y|] eqn:Hy; [|done].
    destruct (mapM f l) as [k|]; [|done].
    intros [= <-]. constructor; [done|by apply IH].
Qed.

(** The dicts after an operation: the same number as before, or the old
    ones followed by the dicts built from the rows of a frame. *)
Lemma store_op_objs (o : store_op) (w : World) :
  length (objs (run_store_op o w).2) = length (objs w) ∨
  ∃ qs columns rows,
    objs (run_store_op o w).2 = objs w ++ qs ∧
    Forall2 (λ row q, QuestionManager.question_of_row columns row = Ok q)
      rows qs.
Proof.
  destruct o as [file_path df|name| | |is_correct|e|t];
    unfold run_store_op, mbind, M_bind.
  - rewrite load_from_excel_run. case_bool_decide; [|by left].
    destruct (mapM _ _) as [qs|err] eqn:Hqs; [|by left].
    right. exists qs, (df_columns df), (df_rows df).
    split; [done|by apply mapM_result_inv].
  - left. unfold QuestionManager.set_current_set.
    by destruct (dict_get _ _).
  - left. unfold QuestionManager.next_question.
    by destruct (QuestionManager.first_unmastered _ _) as [[i|]|].
  - left. unfold QuestionManager.prev_question.
    by destruct (QuestionManager.first_unmastered _ _) as [[i|]|].
  - left. unfold QuestionManager.record_answer, mbind, M_bind,
      QuestionManager.get_current_question.
    destruct (questions w) as [|a0 l0]; [done|].
    destruct (py_index _ _) as [c|]; simpl; [|done].
    apply length_objs_update.
  - left. rewrite reset_run. apply length_objs_update_all.
  - left. rewrite release_run. apply length_objs_update_all.
Qed.

Lemma counters_ok_step (o : store_op) (w : World) :
  Forall counters_ok (objs w) → Forall counters_ok (objs (run_store_op o w).2).
Proof.
  intros Hw. apply Forall_lookup. intros b q' Hq'.
  assert (Hr : read b (run_store_op o w).2 = q').
  { unfold read. by apply list_lookup_total_correct. }
  destruct (decide (live w b)) as [Hb|Hb].
  - assert (Hq : counters_ok (read b w)).
    { eapply Forall_lookup_1; [exact Hw|]. unfold read.
      by apply list_lookup_lookup_total_lt. }
    pose proof Hq as (H1 & H2 & H3 & H4).
    subst q'.
    destruct (store_op_on_dict o w b Hb) as [H|[[c H]|[[e H]|[t H]]]];
      simpl in H; rewrite H.
    + exact Hq.
    + pose proof (answer_question_fields c (read b w)) as F. simpl in F.
      unfold counters_ok. destruct c.
      * destruct F as (Fa & (Fc & Fw & Fm) & _). rewrite Fa, Fc, Fw, Fm.
        repeat split; try lia. intros [Hm Hd]%orb_false_elim.
        apply bool_decide_eq_false in Hd. lia.
      * destruct F as (Fa & (Fw & Fc & Fm) & _). rewrite Fa, Fc, Fw, Fm.
        repeat split; try lia.
    + destruct (reset_question_fields e (read b w)) as (_ & Fc & Fw & Fm & Fa).
      unfold counters_ok. rewrite Fc, Fw, Fm. repeat split; try done.
      destruct Fa as [->| ->]; [done|lia].
    + destruct (release_if_due_fields t (read b w)) as (_ & Fa & Fw & _ & F).
      destruct F as [->|[Fm Fc]]; [exact Hq|].
      unfold counters_ok. rewrite Fa, Fw, Fc. repeat split; try done; lia.
  - destruct (store_op_objs o w) as [Hlen|(qs & columns & rows & Ho & Hqs)].
    + apply lookup_lt_Some in Hq'. unfold live in Hb. lia.
    + rewrite Ho in Hq'. unfold live in Hb.
      rewrite lookup_app_r in Hq' by lia.
      destruct (Forall2_lookup_r _ _ _ _ _ Hqs Hq') as (row & _ & Hrow).
      unfold counters_ok.
      apply question_of_row_defaults in Hrow as (-> & -> & -> & _ & ->).
      repeat split; try done.
Qed.

(** X2.  in every state the operations of the question manager reach from a
    new one, the three counters of every question are at least 0 and a
    question that is not mastered has at most one correct answer in a
    row. *)
Theorem store_reachable_counters (ops : list store_op) :
  Forall counters_ok (objs (run_store_ops ops Examples.blank)).
Proof.
  unfold run_store_ops. induction ops as [|o ops IH] using rev_ind.
  - constructor.
  - rewrite foldl_snoc. by apply counters_ok_step.
Qed.

(** ** The checks that drive the navigation buttons *)

Lemma next_question_exists_run (w : World) :
  QuestionManager.next_question_exists w
  = ((QuestionManager.next_question w).1, w).
Proof.
  unfold QuestionManager.next_question_exists, QuestionManager.next_question.
  by destruct (QuestionManager.first_unmastered _ _) as [[i|]|].
Qed.

Lemma prev_question_exists_run (w : World) :
  QuestionManager.prev_question_exists w
  = ((QuestionManager.prev_question w).1, w).
Proof.
  unfold QuestionManager.prev_question_exists, QuestionManager.prev_question.
  by destruct (QuestionManager.first_unmastered _ _) as [[i|]|].
Qed.

(** X3.  with the cursor on the current list, [next_question_exists] and
    [prev_question_exists] change nothing and answer exactly what the move
    itself would return: true when an unmastered question lies after,
    respectively before, the cursor, false otherwise. *)
Theorem exists_checks_agree_with_moves (w : World) :
  valid_cursor w →
  ∃ n p : bool,
    QuestionManager.next_question_exists w = (Ok n, w) ∧
    (QuestionManager.next_question w).1 = Ok n ∧
    (n = true ↔
     ∃ k : nat, current_question_index w < Z.of_nat k ∧ unmastered_at w k) ∧
    QuestionManager.prev_question_exists w = (Ok p, w) ∧
    (QuestionManager.prev_question w).1 = Ok p ∧
    (p = true ↔
     ∃ k : nat, Z.of_nat k < current_question_index w ∧ unmastered_at w k).
Proof.
  intros [H0 Hlen]%valid_cursor_bounds.
  pose proof (next_question_run w H0) as Hn.
  pose proof (prev_question_run w Hlen) as Hp.
  rewrite next_question_exists_run, prev_question_exists_run.
  destruct (QuestionManager.next_question w) as [[n|en] wn]; [|done].
  destruct (QuestionManager.prev_question w) as [[p|ep] wp]; [|done].
  exists n, p. simpl. repeat split; try done.
  - intros ->. destruct Hn as (i & _ & Hi & Hu & _). by exists i.
  - intros (k & Hk & Hu). destruct n; [done|].
    destruct Hn as [_ Hn]. by destruct (Hn k Hk).
  - intros ->. destruct Hp as (i & _ & Hi & Hu & _). by exists i.
  - intros (k & Hk & Hu). destruct p; [done|].
    destruct Hp as [_ Hp]. by destruct (Hp k Hk).
Qed.

Lemma exists_checks_agree_with_moves_witness :
  valid_cursor Examples.practised ∧
  ∃ n p : bool,
    QuestionManager.next_question_exists Examples.practised
      = (Ok n, Examples.practised) ∧
    (QuestionManager.next_question Examples.practised).1 = Ok n ∧
    QuestionManager.prev_question_exists Examples.practised
      = (Ok p, Examples.practised) ∧
    (QuestionManager.prev_question Examples.practised).1 = Ok p.
Proof.
  assert (Hv : valid_cursor Examples.practised) by by_evaluation.
  split; [exact Hv|].
  destruct (exists_checks_agree_with_moves Examples.practised Hv)
    as (n & p & H1 & H2 & _ & H3 & H4 & _).
  exists n, p. split; [exact H1|]. split; [exact H2|].
  split; [exact H3|exact H4].
Defined.

(** ** The progress tally and the filtered lists *)

Lemma filter_iff_in {A} (P Q : A → Prop) `{∀ x, Decision (P x)}
    `{∀ x, Decision (Q x)} (l : list A) :
  (∀ x, x ∈ l → (P x ↔ Q x)) → filter P l = filter Q l.
Proof.
  induction l as [|x l IH]; intros Hl; [done|].
  rewrite !filter_cons.
  assert (Hx : P x ↔ Q x) by (apply Hl; left).
  rewrite IH by (intros y Hy; apply Hl; by right).
  destruct (decide (P x)), (decide (Q x)); try done; tauto.
Qed.

Lemma filter_none_in {A} (P : A → Prop) `{∀ x, Decision (P x)} (l : list A) :
  (∀ x, x ∈ l → ¬ P x) → filter P l = [].
Proof.
  induction l as [|x l IH]; intros Hl; [done|].
  rewrite filter_cons_False by (apply Hl; left).
  apply IH. intros y Hy. apply Hl. by right.
Qed.

Lemma filter_sublist_impl {A} (P Q : A → Prop) `{∀ x, Decision (P x)}
    `{∀ x, Decision (Q x)} (l : list A) :
  (∀ x, P x → Q x) → filter P l `sublist_of` filter Q l.
Proof.
  intros HPQ. induction l as [|x l IH]; [constructor|].
  rewrite !filter_cons.
  destruct (decide (P x)) as [HP|HP], (decide (Q x)) as [HQ|HQ].
  - by apply sublist_skip.
  - destruct (HQ (HPQ _ HP)).
  - by apply sublist_cons.
  - done.
Qed.

Lemma length_filter_all {A} (P : A → Prop) `{∀ x, Decision (P x)} (l : list A) :
  length (filter P l) = length l ↔ Forall P l.
Proof.
  induction l as [|x l IH]; [by split; [constructor|]|].
  rewrite filter_cons, Forall_cons.
  pose proof (length_filter P l) as Hle.
  destruct (decide (P x)); simpl.
  - rewrite <- IH. split; [intros [= ?]; by split|intros [_ ->]; done].
  - split; [lia|by intros [? _]].
Qed.

(** X4.  [get_progress] returns the length of the current list as the total;
    the counts of answered, on-a-streak and mastered questions lie between
    0 and the total; the unmastered count is the total less the mastered
    count, and it is 0 exactly when no position of the list holds an
    unmastered question. *)
Theorem get_progress_bounds (w : World) :
  let '(total, answered, correct, mastered, unmastered) :=
    QuestionManager.get_progress w in
  total = Z.of_nat (length (questions w)) ∧
  0 ≤ answered ≤ total ∧ 0 ≤ correct ≤ total ∧ 0 ≤ mastered ≤ total ∧
  unmastered = total - mastered ∧ 0 ≤ unmastered ≤ total ∧
  (unmastered = 0 ↔ ∀ k : nat, ¬ unmastered_at w k).
Proof.
  unfold QuestionManager.get_progress.
  pose proof (length_filter (λ a, 0 < q_answered (read a w)) (questions w)).
  pose proof (length_filter (λ a, 0 < q_correct (read a w)) (questions w)).
  pose proof (length_filter (λ a, q_mastered (read a w) = true) (questions w)).
  repeat split; try lia.
  - intros Hu k (a & Ha & Hm).
    assert (Hall : Forall (λ a, q_mastered (read a w) = true) (questions w)).
    { apply (length_filter_all (λ a, q_mastered (read a w) = true)). lia. }
    eapply Forall_lookup_1 in Hall; [|exact Ha]. simpl in Hall. congruence.
  - intros Hnone.
    assert (Hall : Forall (λ a, q_mastered (read a w) = true) (questions w)).
    { apply Forall_lookup. intros k a Ha.
      destruct (q_mastered (read a w)) eqn:Hm; [done|].
      destruct (Hnone k). by exists a. }
    apply (length_filter_all (λ a, q_mastered (read a w) = true)) in Hall.
    lia.
Qed.

Lemma questions_only_objs (w w' : World) :
  only_objs_changed w w' → questions w' = questions w.
Proof. unfold only_objs_changed. by intros ->. Qed.

(** X5.  [reset_progress] keeps the total, the on-a-streak count, the
    mastered and unmastered counts of [get_progress] and the list of wrong
    questions; the answered count can only drop, and when mastered
    questions are not excluded it drops to 0 and no question stays
    marked. *)
Theorem reset_progress_keeps_tallies (e : bool) (w : World) (t a c m u : Z) :
  Forall (live w) (questions w) →
  QuestionManager.get_progress w = (t, a, c, m, u) →
  let w' := (QuestionManager.reset_progress e w).2 in
  ∃ a' : Z,
    QuestionManager.get_progress w' = (t, a', c, m, u) ∧
    0 ≤ a' ≤ a ∧
    QuestionManager.get_wrong_questions w' = QuestionManager.get_wrong_questions w ∧
    (e = false → a' = 0 ∧ QuestionManager.get_marked_questions w' = []).
Proof.
  intros Hlive Hp w'.
  assert (Hq : questions w' = questions w).
  { apply questions_only_objs. unfold w'. rewrite reset_run.
    apply update_all_only_objs. }
  assert (Hr : ∀ x, x ∈ questions w →
                 read x w' = QuestionManager.reset_question e (read x w)).
  { intros x Hx. unfold w'. rewrite reset_run. simpl.
    rewrite read_update_all_idem by apply reset_question_idem.
    rewrite decide_True; [done|]. split; [done|].
    by eapply Forall_forall in Hlive. }
  unfold QuestionManager.get_progress, QuestionManager.get_wrong_questions,
    QuestionManager.get_marked_questions in *.
  rewrite Hq. injection Hp as <- <- <- <- <-.
  rewrite (filter_iff_in (λ x, 0 < q_correct (read x w'))
             (λ x, 0 < q_correct (read x w))).
  2: { intros x Hx. rewrite (Hr x Hx).
       by destruct (reset_question_fields e (read x w)) as (_ & -> & _). }
  rewrite (filter_iff_in (λ x, q_mastered (read x w') = true)
             (λ x, q_mastered (read x w) = true)).
  2: { intros x Hx. rewrite (Hr x Hx).
       by destruct (reset_question_fields e (read x w)) as (_ & _ & _ & -> & _). }
  rewrite (filter_iff_in (λ x, 0 < q_wrong (read x w'))
             (λ x, 0 < q_wrong (read x w))).
  2: { intros x Hx. rewrite (Hr x Hx).
       by destruct (reset_question_fields e (read x w)) as (_ & _ & -> & _). }
  eexists. split; [reflexivity|].
  assert (Hle : (length (filter (λ x, (0 < q_answered (read x w'))%Z)
                           (questions w))
                 ≤ length (filter (λ x, (0 < q_answered (read x w))%Z)
                             (questions w)))%nat).
  { rewrite (filter_iff_in (λ x, 0 < q_answered (read x w'))
               (λ x, 0 < q_answered (read x w') ∧ 0 < q_answered (read x w))).
    - rewrite <- list_filter_filter. apply length_filter.
    - intros x Hx. split; [|by intros [? _]]. intros H. split; [done|].
      rewrite (Hr x Hx) in H.
      destruct (reset_question_fields e (read x w)) as (_ & _ & _ & _ & [Ha|Ha]);
        simpl in Ha; rewrite Ha in H; [done|lia]. }
  split; [lia|]. split; [done|].
  intros ->.
  assert (Hz : ∀ x, x ∈ questions w →
                 q_answered (read x w') = 0 ∧ q_marked (read x w') = false).
  { intros x Hx. rewrite (Hr x Hx). done. }
  split.
  - rewrite filter_none_in; [done|].
    intros x Hx. destruct (Hz x Hx) as [-> _]. lia.
  - apply filter_none_in.
    intros x Hx. destruct (Hz x Hx) as [_ ->]. done.
Qed.

Lemma reset_progress_keeps_tallies_witness :
  Forall (live Examples.practised) (questions Examples.practised) ∧
  QuestionManager.get_progress Examples.practised = (3, 2, 2, 1, 2) ∧
  ∃ a' : Z,
    QuestionManager.get_progress
      (QuestionManager.reset_progress false Examples.practised).2
      = (3, a', 2, 1, 2) ∧
    a' = 0.
Proof.
  assert (Hl : Forall (live Examples.practised) (questions Examples.practised))
    by by_evaluation.
  assert (Hp : QuestionManager.get_progress Examples.practised = (3, 2, 2, 1, 2))
    by (vm_compute; reflexivity).
  split; [exact Hl|]. split; [exact Hp|].
  destruct (reset_progress_keeps_tallies false Examples.practised 3 2 2 1 2 Hl Hp)
    as (a' & H1 & _ & _ & H2).
  exists a'. split; [exact H1|]. exact (proj1 (H2 eq_refl)).
Defined.

Lemma store_op_questions (o : store_op) (w : World) :
  (∀ name, o ≠ OpSetCurrent name) →
  questions (run_store_op o w).2 = questions w.
Proof.
  intros Ho. destruct o as [file_path df|name| | |is_correct|e|t];
    unfold run_store_op, mbind, M_bind.
  - rewrite load_from_excel_run. case_bool_decide; [|done].
    by destruct (mapM _ _).
  - by destruct (Ho name).
  - unfold QuestionManager.next_question.
    by destruct (QuestionManager.first_unmastered _ _) as [[i|]|].
  - unfold QuestionManager.prev_question.
    by destruct (QuestionManager.first_unmastered _ _) as [[i|]|].
  - unfold QuestionManager.record_answer, mbind, M_bind,
      QuestionManager.get_current_question.
    destruct (questions w) as [|a0 l0] eqn:Hq; [done|].
    by destruct (py_index _ _).
  - rewrite reset_run. apply questions_only_objs, update_all_only_objs.
  - rewrite release_run. apply questions_only_objs, update_all_only_objs.
Qed.

Lemma store_op_wrong_le (o : store_op) (w : World) (b : addr) :
  live w b → q_wrong (read b w) ≤ q_wrong (read b (run_store_op o w).2).
Proof.
  intros Hb.
  destruct (store_op_on_dict o w b Hb) as [H|[[c H]|[[e H]|[t H]]]];
    simpl in H; rewrite H.
  - lia.
  - pose proof (answer_question_fields c (read b w)) as F. simpl in F.
    destruct c; [destruct F as (_ & (_ & Hw & _) & _)
                |destruct F as (_ & (Hw & _ & _) & _)]; lia.
  - destruct (reset_question_fields e (read b w)) as (_ & _ & Hw & _). lia.
  - destruct (release_if_due_fields t (read b w)) as (_ & _ & Hw & _). lia.
Qed.

Lemma wrong_positive_live (w : World) (b : addr) :
  0 < q_wrong (read b w) → live w b.
Proof.
  intros Hb. destruct (decide (live w b)) as [|Hn]; [done|].
  rewrite (read_not_live _ _ Hn) in Hb. simpl in Hb. lia.
Qed.

(** X6.  under every operation of the question manager other than a switch
    of sets, the list of wrong questions keeps its members and their
    order: questions can only be added to it.  A wrong answer on the
    current question puts that question on the list. *)
Theorem wrong_list_only_grows (o : store_op) (w : World) :
  ((∀ name, o ≠ OpSetCurrent name) →
   QuestionManager.get_wrong_questions w
     `sublist_of` QuestionManager.get_wrong_questions (run_store_op o w).2) ∧
  (∀ a, o = OpRecordAnswer false →
        QuestionManager.get_current_question w = (Ok (Some a), w) →
        live w a → 0 ≤ q_wrong (read a w) →
        a ∈ QuestionManager.get_wrong_questions (run_store_op o w).2).
Proof.
  split.
  - intros Ho. unfold QuestionManager.get_wrong_questions.
    rewrite store_op_questions by done.
    apply filter_sublist_impl. intros b Hb.
    pose proof (store_op_wrong_le o w b (wrong_positive_live w b Hb)). lia.
  - intros a -> Hcur Ha Hw. unfold QuestionManager.get_wrong_questions.
    unfold run_store_op. rewrite (record_answer_on_current false w a Hcur).
    simpl. apply list_elem_of_filter. split.
    + rewrite read_update_eq by done. simpl. lia.
    + unfold QuestionManager.get_current_question in Hcur.
      destruct (questions w) as [|a0 l0] eqn:Hq; [done|].
      destruct (py_index (a0 :: l0) (current_question_index w)) as [c|] eqn:Hi;
        [|done].
      injection Hcur as ->. unfold py_index in Hi.
      repeat case_bool_decide; try done;
        by eapply list_elem_of_lookup_2.
Qed.

Lemma wrong_list_only_grows_witness :
  (∀ name, OpRecordAnswer false ≠ OpSetCurrent name) ∧
  QuestionManager.get_current_question Examples.practised
    = (Ok (Some 0%nat), Examples.practised) ∧
  live Examples.practised 0%nat ∧
  0 ≤ q_wrong (read 0%nat Examples.practised) ∧
  QuestionManager.get_wrong_questions Examples.practised
    `sublist_of` QuestionManager.get_wrong_questions
                   (run_store_op (OpRecordAnswer false) Examples.practised).2 ∧
  0%nat ∈ QuestionManager.get_wrong_questions
            (run_store_op (OpRecordAnswer false) Examples.practised).2.
Proof.
  assert (H1 : ∀ name, OpRecordAnswer false ≠ OpSetCurrent name)
    by (intros name; discriminate).
  assert (H2 : QuestionManager.get_current_question Examples.practised
               = (Ok (Some 0%nat), Examples.practised))
    by (vm_compute; reflexivity).
  assert (H3 : live Examples.practised 0%nat) by by_evaluation.
  assert (H4 : 0 ≤ q_wrong (read 0%nat Examples.practised)) by by_evaluation.
  split; [exact H1|]. split; [exact H2|]. split; [exact H3|].
  split; [exact H4|].
  destruct (wrong_list_only_grows (OpRecordAnswer false) Examples.practised)
    as [Ha Hb].
  split; [exact (Ha H1)|exact (Hb 0%nat eq_refl H2 H3 H4)].
Defined.

(** ** The database: one set does not disturb another *)

Lemma position_key_inj (a b : string) :
  DatabaseManager.position_key a = DatabaseManager.position_key b → a = b.
Proof. unfold DatabaseManager.position_key. simpl. by intros [= ?]. Qed.

Lemma filter_keep_other (set_name other : string) (rows : list ProgressRow) :
  other ≠ set_name →
  filter (λ r, r_set_name r = other)
    (filter (λ r, r_set_name r ≠ set_name) rows)
  = filter (λ r, r_set_name r = other) rows.
Proof.
  intros Hne. apply list_filter_filter_l. intros r ->. done.
Qed.

Lemma filter_not_own_set (set_name other : string) (qs : list Question) :
  other ≠ set_name →
  filter (λ r, r_set_name r = other)
    (DatabaseManager.row_of_question set_name <$> qs) = [].
Proof.
  intros Hne. apply filter_none_in.
  intros r (q & -> & _)%list_elem_of_fmap. simpl. congruence.
Qed.

(** X7.  [save_progress] for one set leaves what [load_progress] returns for
    any other set as it was, rows and position (or the error raised on a
    position that cannot be read); only the name of the last set becomes
    the saved one. *)
Theorem save_progress_leaves_other_sets (saved : list addr) (idx : Z)
    (set_name other : string) (w : World) :
  other ≠ set_name →
  let w1 := (DatabaseManager.save_progress saved idx set_name w).2 in
  match DatabaseManager.load_progress other w with
  | (Ok (position, _, rows), _) =>
      DatabaseManager.load_progress other w1
      = (Ok (position, Some set_name, rows), w1)
  | (Raise e, _) => DatabaseManager.load_progress other w1 = (Raise e, w1)
  end.
Proof.
  intros Hne. unfold DatabaseManager.load_progress,
    DatabaseManager.save_progress, modify. simpl.
  rewrite lookup_insert_ne
    by (apply not_eq_sym, position_key_not_last_set).
  rewrite lookup_insert_ne by (intros H%position_key_inj; congruence).
  rewrite lookup_insert_eq.
  rewrite filter_app, filter_keep_other by done.
  change ((λ a, DatabaseManager.row_of_question set_name (read a w)) <$> saved)
    with ((DatabaseManager.row_of_question set_name ∘ (λ a, read a w)) <$> saved).
  rewrite (list_fmap_compose (λ a, read a w)), filter_not_own_set by done.
  rewrite app_nil_r.
  destruct (app_state w !! DatabaseManager.position_key other) as [v|];
    [destruct (DatabaseManager.int_of_text v)|]; done.
Qed.

Lemma save_progress_leaves_other_sets_witness :
  "开关题库"%string ≠ "新题库"%string ∧
  let w1 := (DatabaseManager.save_progress [] 5 "新题库" Examples.closed).2 in
  match DatabaseManager.load_progress "开关题库" Examples.closed with
  | (Ok (position, _, rows), _) =>
      DatabaseManager.load_progress "开关题库" w1
      = (Ok (position, Some "新题库"%string, rows), w1)
  | (Raise e, _) =>
      DatabaseManager.load_progress "开关题库" w1 = (Raise e, w1)
  end.
Proof.
  assert (Hne : "开关题库"%string ≠ "新题库"%string) by discriminate.
  split; [exact Hne|].
  exact (save_progress_leaves_other_sets [] 5 "新题库" "开关题库"
           Examples.closed Hne).
Defined.

(** ** The whole-store snapshot *)


Lemma list_find_distinct {A B} `{EqDecision B} (f : A → B) (l : list A) (a : A) :
  NoDup (f <$> l) → a ∈ l →
  ∃ i, list_find (λ x, f x = f a) l = Some (i, a).
Proof.
  intros Hnd [i Hi]%list_elem_of_lookup. exists i.
  apply list_find_Some. split; [done|]. split; [done|].
  intros j y Hj Hlt Heq.
  assert (j = i); [|lia].
  eapply NoDup_lookup; [exact Hnd| |].
  - rewrite list_lookup_fmap, Hj. simpl. by rewrite Heq.
  - by rewrite list_lookup_fmap, Hi.
Qed.





(** ** The answer widget *)

Lemma widget_only_refl (w : World) : widget_only w w.
Proof. by destruct w. Qed.

Lemma widget_only_trans (w1 w2 w3 : World) :
  widget_only w1 w2 → widget_only w2 w3 → widget_only w1 w3.
Proof.
  unfold widget_only. intros H12 H23. rewrite H23, H12. by destruct w1.
Qed.

Lemma add_option_buttons_text (options : list (string * Cell)) (w : World) :
  options_are_text options →
  AnswerWidget.add_option_buttons options w
  = (Ok tt, with_buttons (buttons w ++ shown_buttons options) w).
Proof.
  revert w. induction options as [|[key text] options IH]; intros w Ht.
  - simpl. rewrite app_nil_r. by destruct w.
  - apply Forall_cons in Ht as [Hk Ht]. simpl in Hk.
    destruct text as [t|n|]; [|by destruct (Hk n)|by apply IH].
    unfold shown_buttons. simpl. fold (shown_buttons options).
    destruct (AnswerWidget.is_blank t); [by apply IH|].
    unfold mbind, M_bind, modify. rewrite IH by done. simpl.
    rewrite <- app_assoc. by destruct w.
Qed.

Lemma add_option_buttons_number (options : list (string * Cell)) (w : World) :
  ¬ options_are_text options →
  ∃ w', AnswerWidget.add_option_buttons options w = (Raise AttributeError, w') ∧
        widget_only w w'.
Proof.
  revert w. induction options as [|[key text] options IH]; intros w Ht.
  - destruct Ht. constructor.
  - simpl. destruct text as [t|n|].
    + assert (Ht' : ¬ options_are_text options).
      { intros H. apply Ht. constructor; [done|exact H]. }
      destruct (AnswerWidget.is_blank t); [by apply IH|].
      unfold mbind, M_bind, modify.
      destruct (IH (with_buttons
                      (buttons w ++
                       [{| btn_text := key +:+ ". " +:+ t;
                           btn_checked := false |}]) w) Ht')
        as (w' & -> & Hw).
      exists w'. split; [done|].
      eapply widget_only_trans; [|exact Hw]. by destruct w.
    + exists w. split; [done|apply widget_only_refl].
    + apply IH. intros H. apply Ht. constructor; [done|exact H].
Qed.



Lemma selected_letters_unchecked (bs : list Button) :
  Forall (λ b, btn_checked b = false) bs →
  AnswerWidget.selected_letters bs = Ok EmptyString.
Proof.
  induction 1 as [|b bs Hb _ IH]; [done|]. simpl. by rewrite Hb.
Qed.

Lemma selected_letters_only (bs : list Button) (k : nat) (b : Button) :
  bs !! k = Some b →
  AnswerWidget.selected_letters
    (imap (λ i b, {| btn_text := btn_text b;
                     btn_checked := bool_decide (i = k) |}) bs)
  = first_letter (btn_text b).
Proof.
  revert k. induction bs as [|x bs IH]; intros k Hk; [done|].
  destruct k as [|k]; simpl in Hk.
  - injection Hk as ->. simpl.
    rewrite selected_letters_unchecked.
    + by destruct (btn_text b).
    + apply Forall_forall. intros y [i [z [-> _]]]%elem_of_lookup_imap. done.
  - simpl.
    rewrite (imap_ext _ (λ i b, {| btn_text := btn_text b;
                                   btn_checked := bool_decide (i = k) |})).
    + by apply IH.
    + intros i y _. simpl. f_equal. apply bool_decide_ext. lia.
Qed.

Lemma click_single (k : nat) (w : World) :
  is_multiple w = false →
  ∃ bs, AnswerWidget.click k w = (Ok tt, with_buttons bs w) ∧
        btn_text <$> bs = btn_text <$> buttons w.
Proof.
  intros Hm. unfold AnswerWidget.click, modify. rewrite Hm.
  case_bool_decide.
  - eexists. split; [done|]. rewrite fmap_imap.
    rewrite <- (imap_const btn_text (buttons w)). by apply imap_ext.
  - exists (buttons w). split; [by destruct w|done].
Qed.

Lemma clicks_single (ks : list nat) (w : World) :
  is_multiple w = false →
  ∃ bs, clicks ks w = (Ok tt, with_buttons bs w) ∧
        btn_text <$> bs = btn_text <$> buttons w.
Proof.
  revert w. induction ks as [|k ks IH]; intros w Hm.
  - exists (buttons w). split; [by destruct w|done].
  - change (clicks (k :: ks)) with (AnswerWidget.click k;; clicks ks).
    unfold mbind, M_bind.
    destruct (click_single k w Hm) as (bs1 & -> & H1).
    destruct (IH (with_buttons bs1 w) Hm) as (bs2 & -> & H2).
    exists bs2. split; [by destruct w|]. by rewrite H2.
Qed.

(** X10.  on a question that is not a multiple-choice one the buttons form an
    exclusive group: after any clicks, a click on a button that exists
    leaves that button as the only checked one, so [get_selected_answers]
    returns the first character of its text, whatever was clicked before.
    The clicks change no text and nothing outside the widget. *)
Theorem single_choice_last_click (ks : list nat) (k : nat) (b : Button)
    (w : World) :
  is_multiple w = false →
  buttons w !! k = Some b →
  let w' := (AnswerWidget.click k (clicks ks w).2).2 in
  AnswerWidget.get_selected_answers w' = (first_letter (btn_text b), w') ∧
  btn_text <$> buttons w' = btn_text <$> buttons w ∧
  widget_only w w'.
Proof.
  intros Hm Hk.
  destruct (clicks_single ks w Hm) as (bs & -> & Hbs). simpl.
  assert (Hk' : ∃ b', bs !! k = Some b' ∧ btn_text b' = btn_text b).
  { assert (H : (btn_text <$> bs) !! k = Some (btn_text b))
      by (by rewrite Hbs, list_lookup_fmap, Hk).
    rewrite list_lookup_fmap in H.
    destruct (bs !! k) as [b'|]; [|done]. exists b'. split; [done|].
    by injection H. }
  destruct Hk' as (b' & Hb' & Ht).
  unfold AnswerWidget.click, modify. simpl. rewrite Hm.
  rewrite bool_decide_true by (by apply lookup_lt_Some in Hb').
  simpl. split; [|split].
  - unfold AnswerWidget.get_selected_answers. simpl.
    by rewrite (selected_letters_only bs k b' Hb'), Ht.
  - rewrite fmap_imap, <- Hbs.
    rewrite <- (imap_const btn_text bs). by apply imap_ext.
  - by destruct w.
Qed.

Lemma single_choice_last_click_witness :
  let w := (MainWindow.next_question
              (MainWindow.next_question Examples.started).2).2 in
  is_multiple w = false ∧
  (∃ b, buttons w !! 1%nat = Some b ∧
   AnswerWidget.get_selected_answers
     (AnswerWidget.click 1 (clicks [0; 2; 0]%nat w).2).2
   = (first_letter (btn_text b),
      (AnswerWidget.click 1 (clicks [0; 2; 0]%nat w).2).2)).
Proof.
  intros w.
  assert (Hm : is_multiple w = false) by (vm_compute; reflexivity).
  split; [exact Hm|].
  destruct (buttons w !! 1%nat) as [b|] eqn:Hb.
  - exists b. split; [reflexivity|].
    exact (proj1 (single_choice_last_click [0; 2; 0]%nat 1 b w Hm Hb)).
  - exfalso. revert Hb. vm_compute. discriminate.
Defined.

(** ** Showing a question *)

Lemma widget_only_fields (w w' : World) :
  widget_only w w' →
  objs w' = objs w ∧ questions w' = questions w ∧
  current_question_index w' = current_question_index w ∧
  question_sets w' = question_sets w ∧ current_set w' = current_set w ∧
  current_file_path w' = current_file_path w ∧
  user_progress w' = user_progress w ∧ app_state w' = app_state w ∧
  initialized w' = initialized w.
Proof. intros H. rewrite H. simpl. repeat split. Qed.

Lemma read_widget_only (w w' : World) (b : addr) :
  widget_only w w' → read b w' = read b w.
Proof. intros (H & _)%widget_only_fields. unfold read. by rewrite H. Qed.


Lemma unmastered_at_widget_only (w w' : World) (i : nat) :
  widget_only w w' → unmastered_at w' i ↔ unmastered_at w i.
Proof.
  intros Hw. pose proof (widget_only_fields _ _ Hw) as (_ & Hq & _).
  unfold unmastered_at. rewrite Hq.
  split; intros (a & Ha & Hm); exists a; split; try done.
  - by rewrite <- (read_widget_only w w' a Hw).
  - by rewrite (read_widget_only w w' a Hw).
Qed.

Lemma get_current_question_state (w : World) :
  (QuestionManager.get_current_question w).2 = w.
Proof.
  unfold QuestionManager.get_current_question.
  destruct (questions w); [done|]. by destruct (py_index _ _).
Qed.

Lemma get_current_question_valid (w : World) :
  valid_cursor w →
  (questions w = [] ∧ QuestionManager.get_current_question w = (Ok None, w)) ∨
  (∃ a, questions w !! Z.to_nat (current_question_index w) = Some a ∧
        QuestionManager.get_current_question w = (Ok (Some a), w)).
Proof.
  intros [[Hq Hi]|Hi].
  - left. split; [done|]. by apply get_current_question_empty.
  - right. unfold QuestionManager.get_current_question.
    rewrite py_index_nonneg by lia.
    destruct (questions w !! Z.to_nat (current_question_index w)) as [a|] eqn:Ha.
    + exists a. split; [done|].
      destruct (questions w) eqn:Hq; [by rewrite lookup_nil in Ha|done].
    + apply lookup_ge_None in Ha. lia.
Qed.


Lemma set_question_widget_only (q : Question) (w : World) :
  widget_only w (AnswerWidget.set_question q w).2.
Proof.
  unfold AnswerWidget.set_question, mbind, M_bind, modify.
  set (w1 := with_is_multiple _ _).
  assert (H1 : widget_only w w1) by (by destruct w).
  destruct (decide (options_are_text (q_options q))) as [Ht|Ht].
  - rewrite add_option_buttons_text by done. simpl. by destruct w.
  - destruct (add_option_buttons_number (q_options q) w1 Ht) as (w' & -> & Hw).
    simpl. by eapply widget_only_trans.
Qed.



Lemma show_question_widget_only (w : World) :
  widget_only w (MainWindow.show_question w).2.
Proof.
  unfold MainWindow.show_question, mbind, M_bind.
  pose proof (get_current_question_state w) as Hs.
  destruct (QuestionManager.get_current_question w) as [[[a|]|e] w0];
    simpl in Hs; subst w0; try apply widget_only_refl.
  unfold get_world.
  pose proof (set_question_widget_only (read a w) w) as H1.
  destruct (AnswerWidget.set_question (read a w) w) as [[[]|e] w1];
    simpl in H1; [|done].
  rewrite prev_question_exists_run.
  destruct (QuestionManager.prev_question w1).1 as [p|e]; [|done].
  rewrite next_question_exists_run.
  destruct (QuestionManager.next_question w1).1 as [n|e]; [|done].
  unfold modify. simpl.
  eapply widget_only_trans; [exact H1|]. by destruct w1.
Qed.




(** ** Submitting *)

(** X12.  [submit_answer] records at most one answer per display.  While the
    answer is showing, or when no button is checked, it changes nothing.
    Otherwise, with a current question whose answer cell is a text and a
    list whose content cells are texts (the marking of the buttons and the
    wrong-question list need both to be drawn), it records the judgement on
    the current question and raises the answer-showing flag, and a second
    [submit_answer] then changes nothing. *)
Theorem submit_answer_once (w : World) :
  (showing_answer w = true → MainWindow.submit_answer w = (Ok tt, w)) ∧
  (AnswerWidget.selected_letters (buttons w) = Ok EmptyString →
   (MainWindow.submit_answer w).2 = w) ∧
  (∀ a s,
     showing_answer w = false →
     QuestionManager.get_current_question w = (Ok (Some a), w) →
     AnswerWidget.selected_letters (buttons w) = Ok s → s ≠ EmptyString →
     is_text (q_answer (read a w)) →
     Forall (λ b, is_text (q_content (read b w))) (questions w) →
     let w1 :=
       with_showing_answer true
         (update a (QuestionManager.answer_question
                      (MainWindow.is_correct s (read a w))) w) in
     MainWindow.submit_answer w = (Ok tt, w1) ∧
     MainWindow.submit_answer w1 = (Ok tt, w1)).
Proof.
  split; [|split].
  - intros Hs. unfold MainWindow.submit_answer, mbind, M_bind, get_world.
    by rewrite Hs.
  - intros Hsel. unfold MainWindow.submit_answer, mbind, M_bind, get_world.
    destruct (showing_answer w); [done|].
    pose proof (get_current_question_state w) as Hst.
    destruct (QuestionManager.get_current_question w) as [[[a|]|e] w0];
      simpl in Hst; subst w0; try done.
    unfold AnswerWidget.get_selected_answers. by rewrite Hsel.
  - intros a s Hs Hcur Hsel Hne _ _ w1. split.
    + unfold MainWindow.submit_answer, mbind, M_bind, get_world.
      rewrite Hs, Hcur. unfold AnswerWidget.get_selected_answers.
      rewrite Hsel, bool_decide_false by done.
      by rewrite (record_answer_on_current _ w a Hcur).
    + unfold MainWindow.submit_answer, mbind, M_bind, get_world. done.
Qed.

Lemma submit_answer_once_witness :
  let w := (AnswerWidget.click 0 Examples.started).2 in
  showing_answer w = false ∧
  QuestionManager.get_current_question w = (Ok (Some 0%nat), w) ∧
  AnswerWidget.selected_letters (buttons w) = Ok "A"%string ∧
  is_text (q_answer (read 0%nat w)) ∧
  Forall (λ b, is_text (q_content (read b w))) (questions w) ∧
  let w1 :=
    with_showing_answer true
      (update 0%nat (QuestionManager.answer_question
                       (MainWindow.is_correct "A" (read 0%nat w))) w) in
  MainWindow.submit_answer w = (Ok tt, w1) ∧
  MainWindow.submit_answer w1 = (Ok tt, w1).
Proof.
  intros w.
  assert (H1 : showing_answer w = false) by (vm_compute; reflexivity).
  assert (H2 : QuestionManager.get_current_question w = (Ok (Some 0%nat), w))
    by (vm_compute; reflexivity).
  assert (H3 : AnswerWidget.selected_letters (buttons w) = Ok "A"%string)
    by (vm_compute; reflexivity).
  assert (H4 : is_text (q_answer (read 0%nat w))) by by_evaluation.
  assert (H5 : Forall (λ b, is_text (q_content (read b w))) (questions w))
    by by_evaluation.
  split; [exact H1|]. split; [exact H2|]. split; [exact H3|].
  split; [exact H4|]. split; [exact H5|].
  destruct (submit_answer_once w) as (_ & _ & H).
  exact (H 0%nat "A"%string H1 H2 H3 ltac:(discriminate) H4 H5).
Defined.

(** ** Moving on in the window *)

Lemma first_unmastered_from_start (w : World) :
  match QuestionManager.first_unmastered w
          (py_range 0 (Z.of_nat (length (questions w)))) with
  | Ok (Some i) =>
      ∃ n : nat, i = Z.of_nat n ∧ unmastered_at w n ∧
                 ∀ k : nat, (k < n)%nat → ¬ unmastered_at w k
  | Ok None => ∀ k : nat, ¬ unmastered_at w k
  | Raise _ => False
  end.
Proof.
  set (range := py_range 0 (Z.of_nat (length (questions w)))).
  assert (Hr : Forall (λ i, 0 ≤ i < Z.of_nat (length (questions w))) range).
  { apply Forall_lookup. intros n k [-> Hn]%py_range_lookup. lia. }
  pose proof (first_unmastered_spec w range Hr) as H.
  destruct (QuestionManager.first_unmastered w range) as [[i|]|e]; [| |done].
  - destruct H as (n & [-> Hn]%py_range_lookup & Hi & Hbefore).
    exists n. split; [lia|]. split.
    + by replace (Z.to_nat (0 + Z.of_nat n)) with n in Hi by lia.
    + intros k Hk Hu. apply (Hbefore k (Z.of_nat k)); [done| |].
      * apply py_range_lookup. split; lia.
      * by rewrite Nat2Z.id.
  - intros k Hu. destruct Hu as (a & Ha & Hm).
    pose proof (lookup_lt_Some _ _ _ Ha) as Hlen.
    apply (H k (Z.of_nat k)).
    + apply py_range_lookup. split; lia.
    + rewrite Nat2Z.id. by exists a.
Qed.

(** What [show_first_unmastered_question] does to the store: the cursor
    goes to the first unmastered question, or stays when there is none. *)
Lemma show_first_unmastered_run (w : World) :
  ∃ w1, widget_only w1 (MainWindow.show_first_unmastered_question w).2 ∧
        ((∃ n : nat, w1 = with_current_question_index (Z.of_nat n) w ∧
                     unmastered_at w n ∧
                     ∀ k : nat, (k < n)%nat → ¬ unmastered_at w k) ∨
         (w1 = w ∧ ∀ k : nat, ¬ unmastered_at w k)).
Proof.
  unfold MainWindow.show_first_unmastered_question, mbind, M_bind, get_world.
  pose proof (first_unmastered_from_start w) as H.
  destruct (QuestionManager.first_unmastered w _) as [[i|]|e]; [| |done].
  - destruct H as (n & -> & Hn & Hbefore).
    exists (with_current_question_index (Z.of_nat n) w).
    split; [apply show_question_widget_only|]. left. by exists n.
  - exists w. split; [apply show_question_widget_only|]. by right.
Qed.

Lemma unmastered_at_cursor (w : World) (i : Z) (k : nat) :
  unmastered_at (with_current_question_index i w) k ↔ unmastered_at w k.
Proof. done. Qed.

Lemma unmastered_at_reset (e : bool) (w : World) (k : nat) :
  unmastered_at
    (update_all (QuestionManager.reset_question e) (questions w) w) k
  ↔ unmastered_at w k.
Proof.
  set (w2 := update_all _ _ _).
  assert (Hq : questions w2 = questions w)
    by apply questions_only_objs, update_all_only_objs.
  assert (Hm : ∀ a, q_mastered (read a w2) = q_mastered (read a w)).
  { intros a.
    apply (update_all_keeps (λ q, q_mastered q = q_mastered (read a w)));
      [|done].
    intros q <-. apply reset_question_fields. }
  unfold unmastered_at. rewrite Hq.
  split; intros (a & Ha & Hma); exists a; (split; [done|]); by rewrite ?Hm in *.
Qed.

(** X13.  [MainWindow.next_question], from a cursor on the current list,
    keeps the list and which of its questions are mastered, and leaves the
    cursor on the list.  When an unmastered question lies after the cursor
    it moves to the nearest one and no dict changes.  When none does, it
    resets the questions of the list that are not mastered ([answered] to
    0, [marked] to false) and goes to the first unmastered question of the
    whole list; when every question is mastered the cursor stays where it
    is.  So whenever the list has an unmastered question, the cursor ends
    on one. *)
Theorem window_next_question_spec (w : World) :
  valid_cursor w →
  let w' := (MainWindow.next_question w).2 in
  valid_cursor w' ∧ questions w' = questions w ∧
  (∀ i, unmastered_at w' i ↔ unmastered_at w i) ∧
  ((∃ i, unmastered_at w i) →
   0 ≤ current_question_index w' ∧
   unmastered_at w (Z.to_nat (current_question_index w'))) ∧
  ((∀ i, ¬ unmastered_at w i) →
   current_question_index w' = current_question_index w) ∧
  (∀ k : nat, current_question_index w < Z.of_nat k → unmastered_at w k →
     current_question_index w < current_question_index w' ≤ Z.of_nat k ∧
     ∀ b, read b w' = read b w) ∧
  ((∀ k : nat, current_question_index w < Z.of_nat k → ¬ unmastered_at w k) →
     (∀ i, unmastered_at w i → current_question_index w' ≤ Z.of_nat i) ∧
     ∀ b, read b w' =
          if decide (b ∈ questions w ∧ live w b)
          then QuestionManager.reset_question true (read b w)
          else read b w).
Proof.
  intros Hv w'. pose proof (valid_cursor_bounds w Hv) as [H0 Hlen].
  pose proof (next_question_run w H0) as Hn.
  unfold w', MainWindow.next_question, mbind, M_bind.
  destruct (QuestionManager.next_question w) as [[[|]|e] w1]; [| |done].
  - destruct Hn as (i & -> & Hlt & Hi & Hbetween).
    set (w1 := with_current_question_index (Z.of_nat i) w).
    pose proof (show_question_widget_only w1) as Hw.
    pose proof (widget_only_fields _ _ Hw) as (_ & Hq & Hidx & _).
    simpl in Hq, Hidx.
    assert (Hil : (i < length (questions w))%nat).
    { destruct Hi as (a & Ha & _). by apply lookup_lt_Some in Ha. }
    split; [right; rewrite Hq, Hidx; lia|]. split; [exact Hq|].
    split; [intros k; by rewrite (unmastered_at_widget_only _ _ k Hw)|].
    split; [intros _; rewrite Hidx, Nat2Z.id; split; [lia|done]|].
    split; [intros Hnone; by destruct (Hnone i)|].
    split.
    + intros k Hk Hu. rewrite Hidx. split.
      * split; [lia|]. destruct (decide (k < i)%nat) as [Hki|Hki]; [|lia].
        by destruct (Hbetween k Hk Hki).
      * intros b. by rewrite (read_widget_only _ _ b Hw).
    + intros Hnone. by destruct (Hnone i Hlt).
  - destruct Hn as [-> Hnone]. rewrite reset_run.
    set (w2 := update_all (QuestionManager.reset_question true) (questions w) w).
    assert (Hq2 : questions w2 = questions w)
      by apply questions_only_objs, update_all_only_objs.
    assert (Hi2 : current_question_index w2 = current_question_index w).
    { pose proof (update_all_only_objs
                    (QuestionManager.reset_question true) (questions w) w) as H.
      fold w2 in H. unfold only_objs_changed in H. by rewrite H. }
    assert (Hu2 : ∀ k, unmastered_at w2 k ↔ unmastered_at w k)
      by (intros k; apply unmastered_at_reset).
    assert (Hr2 : ∀ b, read b w2 =
                       if decide (b ∈ questions w ∧ live w b)
                       then QuestionManager.reset_question true (read b w)
                       else read b w).
    { intros b. apply read_update_all_idem. apply reset_question_idem. }
    destruct (show_first_unmastered_run w2) as (w3 & Hw & Hcases).
    pose proof (widget_only_fields _ _ Hw) as (_ & Hq & Hidx & _).
    assert (Hr : ∀ b, read b (MainWindow.show_first_unmastered_question w2).2
                      = read b w3)
      by (intros b; by apply read_widget_only).
    assert (Hu : ∀ k, unmastered_at
                        (MainWindow.show_first_unmastered_question w2).2 k
                      ↔ unmastered_at w3 k)
      by (intros k; by apply unmastered_at_widget_only).
    destruct Hcases as [(n & -> & Hn & Hbefore)|[-> Hall]].
    + simpl in Hq, Hidx.
      assert (Hnl : (n < length (questions w))%nat).
      { destruct Hn as (a & Ha & _). apply lookup_lt_Some in Ha.
        by rewrite Hq2 in Ha. }
      split; [right; rewrite Hq, Hq2, Hidx; lia|].
      split; [by rewrite Hq, Hq2|].
      split; [intros k; by rewrite Hu, unmastered_at_cursor, Hu2|].
      split; [intros _; rewrite Hidx, Nat2Z.id; split; [lia|by apply Hu2]|].
      split; [intros Hno; by destruct (Hno n); apply Hu2|].
      split; [intros k Hk Hku; by destruct (Hnone k Hk)|].
      intros _. split.
      * intros i Hi. rewrite Hidx.
        destruct (decide (i < n)%nat) as [Hin|Hin]; [|lia].
        destruct (Hbefore i Hin). by apply Hu2.
      * intros b. rewrite Hr. apply Hr2.
    + split; [unfold valid_cursor; rewrite Hq, Hq2, Hidx, Hi2; exact Hv|].
      split; [by rewrite Hq, Hq2|].
      split; [intros k; by rewrite Hu, Hu2|].
      split; [intros [i Hi]; by destruct (Hall i); apply Hu2|].
      split; [intros _; by rewrite Hidx, Hi2|].
      split; [intros k Hk Hku; by destruct (Hnone k Hk)|].
      intros _. split.
      * intros i Hi. by destruct (Hall i); apply Hu2.
      * intros b. rewrite Hr. apply Hr2.
Qed.

Lemma window_next_question_spec_witness :
  let w := (QuestionManager.set_current_set "开关题库" Examples.closed).2 in
  let w' := (MainWindow.next_question w).2 in
  valid_cursor w ∧ valid_cursor w' ∧ questions w' = questions w.
Proof.
  intros w w'.
  assert (Hv : valid_cursor w) by by_evaluation.
  split; [exact Hv|].
  destruct (window_next_question_spec w Hv) as (H1 & H2 & _).
  split; [exact H1|exact H2].
Defined.

(** ** Saving on the way out, restoring on the way in *)





















(** ** Closing and starting again *)











(** ** The wrong-question list *)



(** X17.  [open_wrong_question] with the id stored in a list item puts the
    cursor on the first question of the current list that carries that id
    and shows it; nothing but the cursor and the widget changes, and the
    current question is then that question.  When no question of the list
    carries the id, or the id is a missing cell (which equals nothing),
    the call changes nothing. *)
Theorem open_wrong_question_spec (key : Cell) (w : World) :
  let w' := (open_wrong_question key w).2 in
  (∀ (i : nat) (a : addr),
     questions w !! i = Some a → id_at w a = key → key ≠ CNaN →
     (∀ (j : nat) (b : addr), (j < i)%nat → questions w !! j = Some b →
                              id_at w b ≠ key) →
     widget_only (with_current_question_index (Z.of_nat i) w) w' ∧
     (QuestionManager.get_current_question w').1 = Ok (Some a)) ∧
  (key = CNaN ∨ (∀ a, a ∈ questions w → id_at w a ≠ key) →
   open_wrong_question key w = (Ok tt, w)).
Proof.
  intros w'. split.
  - intros i a Hi Hid Hkey Hfirst.
    assert (Hfind : list_find (λ a, py_eq (id_at w a) key) (questions w)
                    = Some (i, a)).
    { apply list_find_Some. split; [done|]. split.
      - split; [done|by rewrite Hid].
      - intros j b Hj Hlt [Hb _]. by apply (Hfirst j b). }
    assert (Hw : widget_only (with_current_question_index (Z.of_nat i) w) w').
    { unfold w', open_wrong_question, mbind, M_bind, get_world.
      rewrite Hfind. unfold modify. apply show_question_widget_only. }
    split; [exact Hw|].
    pose proof (widget_only_fields _ _ Hw) as (_ & Hq & Hidx & _).
    simpl in Hq, Hidx. unfold QuestionManager.get_current_question.
    rewrite Hq, Hidx, py_index_nonneg, Nat2Z.id, Hi by lia.
    by destruct (questions w).
  - intros Hnone. unfold open_wrong_question, mbind, M_bind, get_world.
    destruct (list_find _ _) as [[i a]|] eqn:Hfind; [|done].
    apply list_find_Some in Hfind as (Hi & [Hid Hn] & _).
    destruct Hnone as [->|Hnone].
    + by rewrite Hid in Hn.
    + destruct (Hnone a); [|done]. by eapply list_elem_of_lookup_2.
Qed.

Lemma open_wrong_question_spec_witness :
  let w := Examples.practised in
  let w' := (open_wrong_question (CStr "2.1.2") w).2 in
  questions w !! 1%nat = Some 1%nat ∧ id_at w 1%nat = CStr "2.1.2" ∧
  current_question_index w = 0 ∧
  widget_only (with_current_question_index 1 w) w' ∧
  (QuestionManager.get_current_question w').1 = Ok (Some 1%nat).
Proof.
  intros w w'.
  assert (H1 : questions w !! 1%nat = Some 1%nat) by (vm_compute; reflexivity).
  assert (H2 : id_at w 1%nat = CStr "2.1.2") by (vm_compute; reflexivity).
  assert (H3 : current_question_index w = 0) by (vm_compute; reflexivity).
  split; [exact H1|]. split; [exact H2|]. split; [exact H3|].
  destruct (open_wrong_question_spec (CStr "2.1.2") w) as [H _].
  apply (H 1%nat 1%nat H1 H2); [discriminate|].
  intros j b Hj Hb.
  assert (j = 0%nat) as -> by lia.
  assert (b = 0%nat) as ->.
  { revert Hb. vm_compute. by intros [= <-]. }
  vm_compute. discriminate.
Defined.
